(** * Chat backend (servers, channels, messages): a shallow embedding of
    [main.py] and the properties of its route handlers.

    Python values are modelled by the inductive [value]; a Python [dict] is an
    association list with unique keys kept in insertion order ([dict_set]
    overwrites in place or appends, as CPython does).  The global [db] handle
    is the state threaded through the handlers: [None] when the connection is
    not configured, [Some] database otherwise.  Exceptions are results of the
    monad [M]; a raised exception keeps the writes made before it. *)

From Stdlib Require Import String Ascii List ZArith NArith Arith Lia Bool.
From Stdlib Require Import Sorting.Sorted Sorting.Permutation.
Import ListNotations.
Local Open Scope string_scope.
Local Open Scope list_scope.
Local Set Warnings "-register-all".

(* ===================================================================== *)
(** ** Python values and dicts *)
(* ===================================================================== *)

(** [bson.ObjectId]: a 12-byte identifier, kept as the number its 24
    hexadecimal digits denote. *)
Record ObjectId : Type := Oid { oid_val : N }.

Inductive value : Type :=
| VNone
| VBool (b : bool)
| VInt (z : Z)
| VStr (s : string)
| VOid (o : ObjectId)
| VDate (t : nat)
| VList (l : list value)
| VDict (d : list (string * value)).

Definition dict : Type := list (string * value).

Fixpoint dict_get (k : string) (d : dict) : option value :=
  match d with
  | [] => None
  | (k', v) :: t => if String.eqb k' k then Some v else dict_get k t
  end.

(** [d[k] = v] *)
Fixpoint dict_set (k : string) (v : value) (d : dict) : dict :=
  match d with
  | [] => [(k, v)]
  | (k', v') :: t =>
      if String.eqb k' k then (k', v) :: t else (k', v') :: dict_set k v t
  end.

Fixpoint dict_del (k : string) (d : dict) : dict :=
  match d with
  | [] => []
  | (k', v') :: t =>
      if String.eqb k' k then dict_del k t else (k', v') :: dict_del k t
  end.

Definition dict_keys (d : dict) : list string := map fst d.

Definition dict_has (k : string) (d : dict) : bool :=
  match dict_get k d with Some _ => true | None => false end.

(** Equality of values as the store compares them in an exact-match filter. *)
Fixpoint value_eqb (a b : value) : bool :=
  match a, b with
  | VNone, VNone => true
  | VBool x, VBool y => Bool.eqb x y
  | VInt x, VInt y => Z.eqb x y
  | VStr x, VStr y => String.eqb x y
  | VOid x, VOid y => N.eqb (oid_val x) (oid_val y)
  | VDate x, VDate y => Nat.eqb x y
  | VList x, VList y =>
      (fix go (l1 l2 : list value) : bool :=
         match l1, l2 with
         | [], [] => true
         | h1 :: t1, h2 :: t2 => value_eqb h1 h2 && go t1 t2
         | _, _ => false
         end) x y
  | VDict x, VDict y =>
      (fix go (l1 l2 : list (string * value)) : bool :=
         match l1, l2 with
         | [], [] => true
         | (k1, v1) :: t1, (k2, v2) :: t2 =>
             String.eqb k1 k2 && value_eqb v1 v2 && go t1 t2
         | _, _ => false
         end) x y
  | _, _ => false
  end.

(* ===================================================================== *)
(** ** ObjectId and its string form *)
(* ===================================================================== *)

Module Hex.

Definition hex_digit (d : N) : ascii :=
  match d with
  | 0 => "0" | 1 => "1" | 2 => "2" | 3 => "3" | 4 => "4" | 5 => "5"
  | 6 => "6" | 7 => "7" | 8 => "8" | 9 => "9" | 10 => "a" | 11 => "b"
  | 12 => "c" | 13 => "d" | 14 => "e" | _ => "f"
  end%N%char.

Definition hex_value (c : ascii) : option N :=
  let n := N_of_ascii c in
  if ((48 <=? n) && (n <=? 57))%N then Some (n - 48)%N
  else if ((97 <=? n) && (n <=? 102))%N then Some (n - 87)%N
  else if ((65 <=? n) && (n <=? 70))%N then Some (n - 55)%N
  else None.

(** [k] digits of [n], most significant first, in front of [acc]. *)
Fixpoint to_hex (k : nat) (n : N) (acc : string) : string :=
  match k with
  | O => acc
  | S k' => to_hex k' (n / 16)%N (String (hex_digit (n mod 16)%N) acc)
  end.

Fixpoint from_hex (s : string) (acc : N) : option N :=
  match s with
  | EmptyString => Some acc
  | String c s' =>
      match hex_value c with
      | Some d => from_hex s' (16 * acc + d)%N
      | None => None
      end
  end.

(** ASCII whitespace: space, tab, line feed, vertical tab, form feed and
    carriage return. *)
Definition is_space (c : ascii) : bool :=
  let n := N_of_ascii c in
  (N.eqb n 32 || ((9 <=? n) && (n <=? 13)))%N.

(** [bytes.fromhex(s)]: the bytes that the pairs of hexadecimal digits of
    [s] denote; whitespace is skipped before a pair, a pair that is cut by
    any other character, or by the end, is an error. *)
Fixpoint fromhex (s : string) : option (list N) :=
  match s with
  | EmptyString => Some []
  | String c s' =>
      if is_space c then fromhex s'
      else
        match hex_value c, s' with
        | Some hi, String c' s'' =>
            match hex_value c' with
            | Some lo => option_map (cons (16 * hi + lo)%N) (fromhex s'')
            | None => None
            end
        | _, _ => None
        end
  end.

End Hex.

(** [str(oid)]: 24 lower-case hexadecimal digits. *)
Definition ObjectId_str (o : ObjectId) : string :=
  Hex.to_hex 24 (oid_val o) "".

(** [ObjectId.is_valid(s)] for a string [s]: [ObjectId(s)] does not raise,
    which is when [s] has 24 characters and [bytes.fromhex] accepts it.  A
    string that [fromhex] accepts is ASCII, so its characters are its
    bytes. *)
Definition ObjectId_is_valid (s : string) : bool :=
  Nat.eqb (String.length s) 24 &&
  match Hex.fromhex s with Some _ => true | None => false end.

(* ===================================================================== *)
(** ** Helpers of main.py *)
(* ===================================================================== *)

(** [serialize_id(value)] *)
Definition serialize_id (v : value) : value :=
  match v with
  | VOid o => VStr (ObjectId_str o)
  | _ => v
  end.

(** The loop body of [serialize_doc]: one [(k, v)] of [doc.items()]. *)
Definition serialize_item (out : dict) (kv : string * value) : dict :=
  if String.eqb (fst kv) "_id"
  then dict_set "id" (serialize_id (snd kv)) out
  else dict_set (fst kv) (serialize_id (snd kv)) out.

Definition serialize_items (items : dict) (out : dict) : dict :=
  fold_left serialize_item items out.

(** [serialize_doc(doc)]; [doc] is [None] or a dict.  [not doc] holds for
    [None] and for the empty dict, which are returned as they are. *)
Definition serialize_doc (doc : option dict) : option dict :=
  match doc with
  | None => None
  | Some [] => Some []
  | Some d => Some (serialize_items d [])
  end.

(* ===================================================================== *)
(** ** Errors and the handler monad *)
(* ===================================================================== *)

Inductive error : Type :=
| StoreUnavailable   (* the adapter found no connection *)
| TypeError          (* subscripting [None] *)
| KeyError           (* a missing dict key *)
| InvalidId          (* [ObjectId(s)] on a malformed string *)
| OverflowError      (* an integer that does not fit the 8 bytes of BSON *)
| ValidationError.   (* the request body does not fit the model *)

Inductive result (A : Type) : Type :=
| Ok (a : A)
| Err (e : error).
Arguments Ok {A} a.
Arguments Err {A} e.

(** The 12-byte identifier that a string of 24 hexadecimal digits denotes.
    A valid string with whitespace in it has fewer digits and denotes no
    such identifier. *)
Definition ObjectId_parse (s : string) : option ObjectId :=
  if Nat.eqb (String.length s) 24
  then option_map Oid (Hex.from_hex s 0%N)
  else None.

(** [ObjectId.is_valid(v)] *)
Definition ObjectId_is_valid_value (v : value) : bool :=
  match v with
  | VOid _ => true
  | VStr s => ObjectId_is_valid s
  | _ => false
  end.

(** The identifier that [ObjectId(v)] is, for a valid [v]: an ObjectId is
    taken as it is, a string is parsed. *)

Definition ObjectId_of_value (v : value) : option ObjectId :=
  match v with
  | VOid o => Some o
  | VStr s => ObjectId_parse s
  | _ => None
  end.

(* ===================================================================== *)
(** ** Request models (pydantic) *)
(* ===================================================================== *)

Definition opt_str (o : option string) : value :=
  match o with Some s => VStr s | None => VNone end.

(** A required [str] field of a JSON body. *)
Definition field_str (k : string) (body : dict) : result string :=
  match dict_get k body with
  | Some (VStr s) => Ok s
  | _ => Err ValidationError
  end.

(** An [Optional[str] = None] field. *)
Definition field_opt_str (k : string) (body : dict) : result (option string) :=
  match dict_get k body with
  | None | Some VNone => Ok None
  | Some (VStr s) => Ok (Some s)
  | Some _ => Err ValidationError
  end.

(** A string with its ASCII capitals in lower case. *)
Definition ascii_lower (c : ascii) : ascii :=
  let n := N_of_ascii c in
  if ((65 <=? n) && (n <=? 90))%N then ascii_of_N (n + 32) else c.

Fixpoint lower (s : string) : string :=
  match s with
  | EmptyString => EmptyString
  | String c s' => String (ascii_lower c) (lower s')
  end.

Definition one_of (s : string) (l : list string) : bool :=
  existsb (String.eqb s) l.

(** The strings that stand for a boolean: ["0"] and ["1"] as they are, the
    words whatever their case. *)
Definition str_as_bool (s : string) : option bool :=
  if String.eqb s "0" || one_of (lower s) ["f"; "n"; "no"; "off"; "false"]
  then Some false
  else if String.eqb s "1" || one_of (lower s) ["t"; "y"; "on"; "yes"; "true"]
  then Some true
  else None.

(** A [bool = False] field: a JSON boolean, the integers 0 and 1 and the
    strings of [str_as_bool] are accepted (the lax mode of pydantic). *)
Definition field_bool (k : string) (body : dict) : result bool :=
  match dict_get k body with
  | None => Ok false
  | Some (VBool b) => Ok b
  | Some (VInt 0) => Ok false
  | Some (VInt 1) => Ok true
  | Some (VStr s) =>
      match str_as_bool s with
      | Some b => Ok b
      | None => Err ValidationError
      end
  | Some _ => Err ValidationError
  end.

Fixpoint all_str (l : list value) : option (list string) :=
  match l with
  | [] => Some []
  | VStr s :: t => option_map (cons s) (all_str t)
  | _ :: _ => None
  end.

Module ServerIn.
Record t : Type := Build {
  name : string;
  icon_url : option string;
  description : option string;
  owner_id : option string
}.

Definition model_dump (p : t) : dict :=
  [ ("name", VStr (name p));
    ("icon_url", opt_str (icon_url p));
    ("description", opt_str (description p));
    ("owner_id", opt_str (owner_id p)) ].

(** Validation of a JSON object against the model; keys the model does not
    declare are ignored (pydantic's default).  A [str] field takes a JSON
    string only; pydantic does not turn a number into a string. *)
Definition validate (body : dict) : result t :=
  match field_str "name" body, field_opt_str "icon_url" body,
        field_opt_str "description" body, field_opt_str "owner_id" body with
  | Ok n, Ok i, Ok d, Ok o => Ok (Build n i d o)
  | _, _, _, _ => Err ValidationError
  end.
End ServerIn.

Module ChannelIn.
Record t : Type := Build {
  name : string;
  type : string;
  topic : option string;
  is_private : bool
}.

(** [pattern="^(text|voice|announcement|stage)$"] *)
Definition type_ok (s : string) : bool :=
  String.eqb s "text" || String.eqb s "voice" ||
  String.eqb s "announcement" || String.eqb s "stage".

Definition model_dump (p : t) : dict :=
  [ ("name", VStr (name p));
    ("type", VStr (type p));
    ("topic", opt_str (topic p));
    ("is_private", VBool (is_private p)) ].

Definition validate (body : dict) : result t :=
  match field_str "name" body,
        match dict_get "type" body with
        | None => Ok "text"
        | Some (VStr s) => if type_ok s then Ok s else Err ValidationError
        | Some _ => Err ValidationError
        end,
        field_opt_str "topic" body,
        field_bool "is_private" body with
  | Ok n, Ok ty, Ok tp, Ok pr => Ok (Build n ty tp pr)
  | _, _, _, _ => Err ValidationError
  end.
End ChannelIn.

Module MessageIn.
Record t : Type := Build {
  author_id : string;
  author_name : string;
  content : string;
  attachments : list string
}.

Definition model_dump (p : t) : dict :=
  [ ("author_id", VStr (author_id p));
    ("author_name", VStr (author_name p));
    ("content", VStr (content p));
    ("attachments", VList (map VStr (attachments p))) ].

Definition validate (body : dict) : result t :=
  match field_str "author_id" body, field_str "author_name" body,
        field_str "content" body,
        match dict_get "attachments" body with
        | None => Ok []
        | Some (VList l) =>
            match all_str l with
            | Some ss => Ok ss
            | None => Err ValidationError
            end
        | Some _ => Err ValidationError
        end with
  | Ok a, Ok n, Ok c, Ok att => Ok (Build a n c att)
  | _, _, _, _ => Err ValidationError
  end.
End MessageIn.

(* ===================================================================== *)
(** ** The document store *)
(* ===================================================================== *)

(** A database: its named collections (documents in insertion order, the
    order a scan returns them in), the next identifier the driver hands out
    and the clock read by the adapter. *)
Record database : Type := mkDatabase {
  colls : list (string * list dict);
  next_oid : N;
  clock : nat
}.

Definition empty_db : database := mkDatabase [] 0%N 0.

Fixpoint coll_get (name : string) (cs : list (string * list dict)) : list dict :=
  match cs with
  | [] => []
  | (n, docs) :: t => if String.eqb n name then docs else coll_get name t
  end.

Fixpoint coll_set (name : string) (docs : list dict)
    (cs : list (string * list dict)) : list (string * list dict) :=
  match cs with
  | [] => [(name, docs)]
  | (n, ds) :: t =>
      if String.eqb n name then (n, docs) :: t else (n, ds) :: coll_set name docs t
  end.

(** [db[name]]: the documents of a collection; a collection that was never
    written to is empty. *)
Definition collection (name : string) (db : database) : list dict :=
  coll_get name (colls db).

(** An exact-match filter [{field: value, ...}]; a missing field matches
    only [None]. *)
Definition matches (flt : dict) (d : dict) : bool :=
  forallb (fun kv =>
             match dict_get (fst kv) d with
             | Some v => value_eqb v (snd kv)
             | None => value_eqb VNone (snd kv)
             end) flt.

(** [coll.find(flt)], [coll.find_one(flt)], [coll.count_documents(flt)] *)
Definition find (flt : dict) (docs : list dict) : list dict :=
  filter (matches flt) docs.

Definition find_one (flt : dict) (docs : list dict) : option dict :=
  hd_error (find flt docs).

Definition count_documents (flt : dict) (docs : list dict) : nat :=
  length (find flt docs).

(** The order of [cursor.sort("created_at", 1)]: values are compared by
    type first (null and missing fields lowest, dates above numbers, strings
    and identifiers), dates by their instant and numbers by their value.
    Values of one of the other types are left in store order. *)
Definition bson_rank (v : value) : nat :=
  match v with
  | VNone => 0
  | VInt _ => 1
  | VStr _ => 2
  | VDict _ => 3
  | VList _ => 4
  | VOid _ => 5
  | VBool _ => 6
  | VDate _ => 7
  end.

Definition bson_le (a b : value) : bool :=
  match a, b with
  | VDate x, VDate y => Nat.leb x y
  | VInt x, VInt y => Z.leb x y
  | _, _ => Nat.leb (bson_rank a) (bson_rank b)
  end.

Definition created_at (d : dict) : value :=
  match dict_get "created_at" d with
  | Some v => v
  | None => VNone
  end.

Definition created_le (a b : dict) : bool :=
  bson_le (created_at a) (created_at b).

Fixpoint insert_sorted (x : dict) (l : list dict) : list dict :=
  match l with
  | [] => [x]
  | h :: t => if created_le x h then x :: l else h :: insert_sorted x t
  end.

Definition sort_created_at (l : list dict) : list dict :=
  fold_right insert_sorted [] l.

(** The largest integer that BSON encodes (8 bytes, signed). *)
Definition int64_max : Z := 2 ^ 63 - 1.

(** [cursor.limit(n)], read when the cursor is iterated: a limit of 0 is no
    limit and is not sent; otherwise the driver sends [abs(n)] as the limit,
    and encoding the command raises an OverflowError when that does not fit
    8 bytes. *)
Definition limit (n : Z) (l : list dict) : result (list dict) :=
  if Z.eqb n 0 then Ok l
  else if Z.leb (Z.abs n) int64_max then Ok (firstn (Z.abs_nat n) l)
  else Err OverflowError.

(** The identifier the driver hands out next: 12 bytes, so the counter
    wraps at [2^96]. *)
Definition fresh_oid (db : database) : ObjectId :=
  Oid (next_oid db mod 2 ^ 96)%N.

(** [coll.insert_one(doc)]: the driver assigns a fresh [_id], the server
    stores it as the first field.  The handlers only insert dumps of the
    request models, which carry no [_id] of their own. *)
Definition insert_one (name : string) (doc : dict) (db : database)
    : ObjectId * database :=
  let oid := fresh_oid db in
  let stored := ("_id", VOid oid) :: dict_del "_id" doc in
  (oid,
   mkDatabase (coll_set name (collection name db ++ [stored]) (colls db))
              (N.succ (next_oid db))
              (clock db)).

(** The state of a run: the module-level [db], [None] when no connection is
    configured. *)
Definition world : Type := option database.

Definition M (A : Type) : Type := world -> result A * world.

Definition ret {A : Type} (a : A) : M A := fun w => (Ok a, w).

Definition raise {A : Type} (e : error) : M A := fun w => (Err e, w).

Definition bind {A B : Type} (m : M A) (k : A -> M B) : M B :=
  fun w =>
    match m w with
    | (Ok a, w') => k a w'
    | (Err e, w') => (Err e, w')
    end.

Declare Scope handler_scope.
Delimit Scope handler_scope with handler.
Notation "x <- m ;; k" := (bind m (fun x => k))
  (at level 61, m at next level, right associativity) : handler_scope.
Notation "m ;;; k" := (bind m (fun _ => k))
  (at level 61, right associativity) : handler_scope.
Local Open Scope handler_scope.

(** [for x in l: body(x)] *)
Fixpoint for_each {A : Type} (l : list A) (body : A -> M unit) : M unit :=
  match l with
  | [] => ret tt
  | x :: t => body x ;;; for_each t body
  end.

(** [db[name]] in main.py: subscripting [None] is a TypeError. *)
Definition db_collection (name : string) : M (list dict) :=
  fun w =>
    match w with
    | Some db => (Ok (collection name db), w)
    | None => (Err TypeError, w)
    end.

(** A result, returned or raised. *)
Definition lift {A : Type} (r : result A) : M A :=
  match r with
  | Ok a => ret a
  | Err e => raise e
  end.

(** [ObjectId(s)] for a string [s]: raises InvalidId unless [s] is valid;
    [None] stands for the identifier of fewer than 12 bytes that a valid
    string with whitespace makes. *)
Definition ObjectId_new (s : string) : M (option ObjectId) :=
  if ObjectId_is_valid s then ret (ObjectId_parse s) else raise InvalidId.

(** [coll.find_one({"_id": oid})]; an identifier of fewer than 12 bytes is
    that of no stored document. *)
Definition find_by_oid (oid : option ObjectId) (docs : list dict) : option dict :=
  match oid with
  | Some o => find_one [("_id", VOid o)] docs
  | None => None
  end.

(** [doc[key]] on a value that may be [None]. *)
Definition subscript (doc : option dict) (key : string) : M value :=
  match doc with
  | None => raise TypeError
  | Some d =>
      match dict_get key d with
      | Some v => ret v
      | None => raise KeyError
      end
  end.

(** Modelled from the spec: [create_document] of the adapter module
    [database.py], which is not among the sources.  It inserts [data] as a
    new document of the named collection, stamped with the creation time
    [created_at], and returns the assigned identifier as a string; it fails
    with [StoreUnavailable] when no connection is established.  A store that
    is configured answers: failures of the store itself ([ReadError],
    [WriteError]) are outside this model. *)
Definition create_document (collection_name : string) (data : dict) : M string :=
  fun w =>
    match w with
    | None => (Err StoreUnavailable, w)
    | Some db =>
        let data_dict := dict_set "created_at" (VDate (clock db)) data in
        let '(oid, db') := insert_one collection_name data_dict db in
        (Ok (ObjectId_str oid),
         Some (mkDatabase (colls db') (next_oid db') (S (clock db'))))
    end.

(** Modelled from the spec: [get_documents] of the adapter module
    [database.py], which is not among the sources.  It returns all documents
    of the collection that match an exact-match filter, the empty filter
    matching all; it fails with [StoreUnavailable] when no connection is
    established. *)
Definition get_documents (collection_name : string) (flt : dict) : M (list dict) :=
  fun w =>
    match w with
    | None => (Err StoreUnavailable, w)
    | Some db => (Ok (find flt (collection collection_name db)), w)
    end.

(* ===================================================================== *)
(** ** Route handlers of main.py *)
(* ===================================================================== *)

(** A path parameter is a string; the seed routine calls the handlers with
    whatever it read from a document, hence the handlers take a [value]. *)

(** [GET /api/servers] *)
Definition list_servers : M (list (option dict)) :=
  servers <- get_documents "server" [] ;;
  ret (map (fun s => serialize_doc (Some s)) servers).

(** [POST /api/servers] *)
Definition create_server (payload : ServerIn.t) : M (option dict) :=
  server_id <- create_document "server" (ServerIn.model_dump payload) ;;
  coll <- db_collection "server" ;;
  oid <- ObjectId_new server_id ;;
  ret (serialize_doc (find_by_oid oid coll)).

(** [GET /api/servers/{server_id}/channels] *)
Definition list_channels (server_id : value) : M (list (option dict)) :=
  channels <- get_documents "channel" [("server_id", server_id)] ;;
  ret (map (fun c => serialize_doc (Some c)) channels).

(** [POST /api/servers/{server_id}/channels] *)
Definition create_channel (server_id : value) (payload : ChannelIn.t)
    : M (option dict) :=
  let data := ChannelIn.model_dump payload in
  let data := dict_set "server_id" server_id data in
  channel_id <- create_document "channel" data ;;
  coll <- db_collection "channel" ;;
  oid <- ObjectId_new channel_id ;;
  ret (serialize_doc (find_by_oid oid coll)).

(** [GET /api/channels/{channel_id}/messages] *)
Definition list_messages (channel_id : value) (lim : Z) : M (list (option dict)) :=
  coll <- db_collection "message" ;;
  cursor <- lift (limit lim (sort_created_at
                               (find [("channel_id", channel_id)] coll))) ;;
  ret (map (fun m => serialize_doc (Some m)) cursor).

(** The channel lookup of [send_message]: by [_id] when
    [ObjectId.is_valid(channel_id)], by the field [id] otherwise. *)
Definition lookup_channel (channel_id : value) (chans : list dict) : option dict :=
  if ObjectId_is_valid_value channel_id
  then find_by_oid (ObjectId_of_value channel_id) chans
  else find_one [("id", channel_id)] chans.

(** [POST /api/channels/{channel_id}/messages]; the looked-up channel is
    bound and then not used ([if not channel: pass]). *)
Definition send_message (channel_id : value) (payload : MessageIn.t)
    : M (option dict) :=
  chans <- db_collection "channel" ;;
  let channel := lookup_channel channel_id chans in
  let data := MessageIn.model_dump payload in
  let data := dict_set "channel_id" channel_id data in
  msg_id <- create_document "message" data ;;
  coll <- db_collection "message" ;;
  oid <- ObjectId_new msg_id ;;
  ret (serialize_doc (find_by_oid oid coll)).

Record seed_response : Type := mkSeed {
  seed_server : option dict;
  seed_channels : list (option dict)
}.

Definition seed_channel_names : list string :=
  ["general"; "announcements"; "design"; "dev-talk"].

Definition seed_texts : list string :=
  [ "Welcome to VibeCord — a clean, modern chat.";
    "Use the message box below to send your first message.";
    "We'll keep things fast and minimal." ].

(** Truth value of a fetched document: [None] and [{}] are false. *)
Definition truthy (doc : option dict) : bool :=
  match doc with
  | Some (_ :: _) => true
  | _ => false
  end.

(** [POST /api/seed] *)
Definition seed_demo : M seed_response :=
  servers <- db_collection "server" ;;
  let existing := find_one [] servers in
  server <- (if truthy existing
             then ret (serialize_doc existing)
             else create_server
                    (ServerIn.Build "VibeCord" None
                       (Some "A modern, minimal community") None)) ;;
  server_id <- subscript server "id" ;;
  chans <- db_collection "channel" ;;
  (if Nat.eqb (count_documents [("server_id", server_id)] chans) 0
   then for_each seed_channel_names
          (fun name =>
             create_channel server_id
               (ChannelIn.Build name "text" (Some ("Welcome to #" ++ name)%string) false) ;;;
             ret tt)
   else ret tt) ;;;
  channels <- list_channels server_id ;;
  match channels with
  | first_channel :: _ =>
      cid <- subscript first_channel "id" ;;
      msgs <- db_collection "message" ;;
      if Nat.eqb (count_documents [("channel_id", cid)] msgs) 0
      then for_each seed_texts
             (fun text =>
                send_message cid (MessageIn.Build "seed" "System" text []) ;;;
                ret tt)
      else ret tt
  | [] => ret tt
  end ;;;
  ret (mkSeed server channels).

(* ===================================================================== *)
(** ** The diagnostic route [GET /test] *)
(* ===================================================================== *)

Module Diagnostic.

(** The [response] dict of [test_database], one field per key. *)
Record response : Type := mkResponse {
  backend : string;
  database : string;
  database_url : option string;
  database_name : option string;
  connection_status : string;
  collections : list string
}.

(** What the handler observes of the [db] object: the attribute [name]
    (absent, a string, or a lookup that raises) and the outcome of
    [list_collection_names()] ([inl msg] when it raises an exception [e]
    with [str(e) = msg]). *)
Inductive attribute : Type :=
| AttrMissing
| AttrValue (s : string)
| AttrRaises (msg : string).

Record db_object : Type := mkDb {
  name_attr : attribute;
  list_collection_names : string + list string
}.

(** Statements that update [response] and may raise an exception, which
    carries its message. *)
Definition T (A : Type) : Type := response -> (string + A) * response.

Definition tret {A : Type} (a : A) : T A := fun r => (inr a, r).
Definition traise {A : Type} (msg : string) : T A := fun r => (inl msg, r).
Definition tbind {A B : Type} (m : T A) (k : A -> T B) : T B :=
  fun r =>
    match m r with
    | (inr a, r') => k a r'
    | (inl e, r') => (inl e, r')
    end.

(** [try: body / except Exception as e: handler(e)] *)
Definition try_except (body : T unit) (handler : string -> T unit) : T unit :=
  fun r =>
    match body r with
    | (inr a, r') => (inr a, r')
    | (inl e, r') => handler e r'
    end.

Declare Scope diag_scope.
Delimit Scope diag_scope with diag.
Notation "x <- m ;; k" := (tbind m (fun x => k))
  (at level 61, m at next level, right associativity) : diag_scope.
Notation "m ;;; k" := (tbind m (fun _ => k))
  (at level 61, right associativity) : diag_scope.

Definition set_database (s : string) : T unit :=
  fun r => (inr tt, mkResponse (backend r) s (database_url r) (database_name r)
                      (connection_status r) (collections r)).
Definition set_database_url (s : option string) : T unit :=
  fun r => (inr tt, mkResponse (backend r) (database r) s (database_name r)
                      (connection_status r) (collections r)).
Definition set_database_name (s : option string) : T unit :=
  fun r => (inr tt, mkResponse (backend r) (database r) (database_url r) s
                      (connection_status r) (collections r)).
Definition set_connection_status (s : string) : T unit :=
  fun r => (inr tt, mkResponse (backend r) (database r) (database_url r)
                      (database_name r) s (collections r)).
Definition set_collections (l : list string) : T unit :=
  fun r => (inr tt, mkResponse (backend r) (database r) (database_url r)
                      (database_name r) (connection_status r) l).

(** [hasattr(db, 'name')]: false when the attribute is absent; any other
    exception of the lookup is raised. *)
Definition hasattr_name (h : db_object) : T bool :=
  match name_attr h with
  | AttrMissing => tret false
  | AttrValue _ => tret true
  | AttrRaises msg => traise msg
  end.

(** [db.name] *)
Definition getattr_name (h : db_object) : T string :=
  match name_attr h with
  | AttrValue s => tret s
  | AttrMissing => traise "'Database' object has no attribute 'name'"
  | AttrRaises msg => traise msg
  end.

Definition call_list_collection_names (h : db_object) : T (list string) :=
  match list_collection_names h with
  | inr l => tret l
  | inl msg => traise msg
  end.

(** [os.getenv(k)] as a condition: unset and empty are false. *)
Definition env_set (v : option string) : bool :=
  match v with
  | Some (String _ _) => true
  | _ => false
  end.

(** A byte that continues a character of a UTF-8 string (10xxxxxx). *)
Definition is_continuation (c : ascii) : bool :=
  let n := N_of_ascii c in ((128 <=? n) && (n <=? 191))%N.

(** [len(s)]: the number of characters of a string held as UTF-8 bytes. *)
Fixpoint char_length (s : string) : nat :=
  match s with
  | EmptyString => 0
  | String c s' =>
      if is_continuation c then char_length s' else S (char_length s')
  end.

(** [s[:n]]: the first [n] characters, each with all its bytes. *)
Fixpoint prefix (n : nat) (s : string) : string :=
  match s with
  | EmptyString => EmptyString
  | String c s' =>
      if is_continuation c then String c (prefix n s')
      else
        match n with
        | O => EmptyString
        | S n' => String c (prefix n' s')
        end
  end.

Definition initial : response :=
  mkResponse "✅ Running" "❌ Not Available" None None "Not Connected" [].

(** [test_database()]; [db] is the module-level handle, [env_url] and
    [env_name] the environment variables DATABASE_URL and DATABASE_NAME.
    [inl msg] is an exception that leaves the handler. *)
Definition test_database (db : option db_object)
    (env_url env_name : option string) : string + response :=
  let body : T unit :=
    (try_except
       (match db with
        | Some h =>
            set_database "✅ Available" ;;;
            set_database_url (Some "✅ Configured") ;;;
            has <- hasattr_name h ;;
            nm <- (if has then getattr_name h else tret "✅ Connected") ;;
            set_database_name (Some nm) ;;;
            set_connection_status "Connected" ;;;
            try_except
              (cs <- call_list_collection_names h ;;
               set_collections (firstn 10 cs) ;;;
               set_database "✅ Connected & Working")
              (fun e =>
                 set_database ("⚠️  Connected but Error: " ++ prefix 50 e)%string)
        | None => set_database "⚠️  Available but not initialized"
        end)
       (fun e => set_database ("❌ Error: " ++ prefix 50 e)%string) ;;;
     set_database_url
       (Some (if env_set env_url then "✅ Set" else "❌ Not Set")) ;;;
     set_database_name
       (Some (if env_set env_name then "✅ Set" else "❌ Not Set")))%diag in
  match body initial with
  | (inr _, r) => inr r
  | (inl e, _) => inl e
  end.

End Diagnostic.

(** The routes as FastAPI serves them: the body is validated against the
    model before the handler runs, path parameters are strings and an
    omitted [limit] takes its default. *)
Definition validated {A B : Type} (r : result A) (k : A -> M B) : M B :=
  match r with
  | Ok a => k a
  | Err e => raise e
  end.

Definition post_api_servers (body : dict) : M (option dict) :=
  validated (ServerIn.validate body) create_server.

Definition post_api_channels (server_id : string) (body : dict) : M (option dict) :=
  validated (ChannelIn.validate body) (create_channel (VStr server_id)).

Definition get_api_messages (channel_id : string) (lim : option Z)
    : M (list (option dict)) :=
  list_messages (VStr channel_id) (match lim with Some n => n | None => 50%Z end).

Definition post_api_messages (channel_id : string) (body : dict) : M (option dict) :=
  validated (MessageIn.validate body) (send_message (VStr channel_id)).

(* ===================================================================== *)
(** ** Notions used in the statements *)
(* ===================================================================== *)

(** The key under which [serialize_doc] files a field. *)
Definition rename (k : string) : string :=
  if String.eqb k "_id" then "id" else k.

(** The value of the last item of [d] that [serialize_doc] files under
    [k']: later assignments to a key overwrite earlier ones. *)
Fixpoint last_binding (k' : string) (d : dict) : option value :=
  match d with
  | [] => None
  | (k, v) :: t =>
      match last_binding k' t with
      | Some x => Some x
      | None => if String.eqb (rename k) k' then Some v else None
      end
  end.

(** A dict in transport form: keys are unique (as in any Python dict), there
    is no [_id] key and no top-level value is an ObjectId. *)
Definition plain (d : dict) : Prop :=
  NoDup (dict_keys d) /\
  dict_get "_id" d = None /\
  Forall (fun kv => serialize_id (snd kv) = snd kv) d.

(** A value that holds other values: a list or a mapping. *)
Definition nested (v : value) : Prop :=
  match v with
  | VList _ | VDict _ => True
  | _ => False
  end.

(** No document of the collection already carries the identifier that the
    driver hands out next. *)
Definition fresh_id (name : string) (db : database) : Prop :=
  Forall (fun d => dict_get "_id" d <> Some (VOid (fresh_oid db)))
         (collection name db).

(** The document that [create_document] stores for [data]. *)
Definition stored (data : dict) (db : database) : dict :=
  ("_id", VOid (fresh_oid db)) ::
  dict_del "_id" (dict_set "created_at" (VDate (clock db)) data).

(** The database after [create_document] stored [doc] in a collection. *)
Definition added (name : string) (doc : dict) (db : database) : database :=
  mkDatabase (coll_set name (collection name db ++ [doc]) (colls db))
             (N.succ (next_oid db))
             (S (clock db)).

(** The database with its channel collection replaced. *)
Definition with_channels (chans : list dict) (db : database) : database :=
  mkDatabase (coll_set "channel" chans (colls db)) (next_oid db) (clock db).

(** The value of a body field, [null] when the body leaves it out. *)
Definition field_or_null (k : string) (body : dict) : value :=
  match dict_get k body with
  | Some v => v
  | None => VNone
  end.

(** [a] is not created after [b], in the order of the sort. *)
Definition in_order (a b : dict) : Prop := created_le a b = true.

(** The [limit] a request for the messages of a channel runs with. *)
Definition limit_of (lim : option Z) : Z :=
  match lim with
  | Some n => n
  | None => 50%Z
  end.

(** The store after one call of the seed routine on the empty store. *)
Definition seeded_db : database :=
  match snd (seed_demo (Some empty_db)) with
  | Some db => db
  | None => empty_db
  end.

(** A document as the store holds it after an insert of this application:
    the identifier first, an ObjectId, and no field named [id]. *)
Definition stored_ok (d : dict) : Prop :=
  exists (o : ObjectId) (rest : dict),
    d = ("_id", VOid o) :: rest /\
    dict_get "_id" rest = None /\
    dict_get "id" rest = None.

(** The invariant of the store: every document of every collection is one
    that an insert of this application made. *)
Definition store_inv (w : world) : Prop :=
  match w with
  | None => True
  | Some db => forall name, Forall stored_ok (collection name db)
  end.

(** A document of a response exposes its identifier: the key [id] holds a
    string of 24 characters and there is no key [_id]. *)
Definition exposes_id (r : option dict) : Prop :=
  exists (d : dict) (s : string),
    r = Some d /\
    dict_get "id" d = Some (VStr s) /\
    String.length s = 24 /\
    dict_get "_id" d = None.

(** The requests that return documents, and their responses. *)
Inductive request : Type :=
| GetServers
| PostServers (body : dict)
| GetChannels (server_id : string)
| PostChannels (server_id : string) (body : dict)
| GetMessages (channel_id : string) (lim : option Z)
| PostMessages (channel_id : string) (body : dict)
| PostSeed.

Inductive response : Type :=
| RDoc (d : option dict)
| RList (l : list (option dict))
| RSeed (r : seed_response).

Definition response_docs (r : response) : list (option dict) :=
  match r with
  | RDoc d => [d]
  | RList l => l
  | RSeed s => seed_server s :: seed_channels s
  end.

Definition fmap {A B : Type} (f : A -> B) (m : M A) : M B :=
  x <- m ;; ret (f x).

(** The application as a whole: one request, served in the current state. *)
Definition handle (rq : request) : M response :=
  match rq with
  | GetServers => fmap RList list_servers
  | PostServers body => fmap RDoc (post_api_servers body)
  | GetChannels sid => fmap RList (list_channels (VStr sid))
  | PostChannels sid body => fmap RDoc (post_api_channels sid body)
  | GetMessages cid lim => fmap RList (get_api_messages cid lim)
  | PostMessages cid body => fmap RDoc (post_api_messages cid body)
  | PostSeed => fmap RSeed seed_demo
  end.

(** The states the application reaches from an empty store, or with no store
    configured, by serving requests one after the other. *)
Inductive reachable : world -> Prop :=
| reach_empty : reachable (Some empty_db)
| reach_unconfigured : reachable None
| reach_step (w : world) (rq : request) :
    reachable w -> reachable (snd (handle rq w)).

(** [m], run in a state that satisfies the invariant, ends in such a state,
    and a value it returns satisfies [Q]. *)
Definition triple {A : Type} (m : M A) (Q : A -> Prop) : Prop :=
  forall w, store_inv w ->
    store_inv (snd (m w)) /\ forall a, fst (m w) = Ok a -> Q a.

(** A stored channel with the defaults of [ChannelIn]. *)
Definition channel_defaults (d : dict) : Prop :=
  dict_get "type" d = Some (VStr "text") /\
  dict_get "is_private" d = Some (VBool false).

(** A stored welcome message of the seed routine, for the channel [cid]. *)
Definition welcome_message (cid : value) (d : dict) : Prop :=
  dict_get "author_id" d = Some (VStr "seed") /\
  dict_get "author_name" d = Some (VStr "System") /\
  dict_get "attachments" d = Some (VList []) /\
  dict_get "channel_id" d = Some cid.

(** The body of the two loops of the seed routine. *)
Definition seed_channel (server_id : value) (name : string) : M unit :=
  create_channel server_id
    (ChannelIn.Build name "text" (Some ("Welcome to #" ++ name)%string) false) ;;;
  ret tt.

Definition seed_message (cid : value) (text : string) : M unit :=
  send_message cid (MessageIn.Build "seed" "System" text []) ;;;
  ret tt.

(** One field of a document as [serialize_doc] writes it. *)
Definition serialize_field (kv : string * value) : string * value :=
  (rename (fst kv), serialize_id (snd kv)).

(** One of the two keys that [serialize_doc] files under [id]. *)
Definition id_key (k : string) : Prop := k = "_id" \/ k = "id".

(** [m] keeps the property [I] of the state, whether it returns or raises. *)
Definition preserves {A : Type} (I : world -> Prop) (m : M A) : Prop :=
  forall w, I w -> I (snd (m w)).

(** The state is a store whose collections are those of [db0], each with
    documents added at its end. *)
Definition grown_from (db0 : database) (w : world) : Prop :=
  exists db : database,
    w = Some db /\
    forall name, exists new, collection name db = collection name db0 ++ new.

(** A stored channel whose [type] is one of the four that [ChannelIn]
    accepts. *)
Definition channel_type_ok (d : dict) : Prop :=
  exists s : string,
    dict_get "type" d = Some (VStr s) /\ ChannelIn.type_ok s = true.

Definition channel_types_ok (w : world) : Prop :=
  match w with
  | None => True
  | Some db => Forall channel_type_ok (collection "channel" db)
  end.

(** The store holds what the seed routine looks for, and [r] is what the
    routine answers then: the first server, with channels, the first of
    which has messages. *)
Definition seed_settled (db : database) (r : seed_response) : Prop :=
  exists (first sdoc : dict) (sid : string)
         (fc : dict) (rest : list (option dict)) (cid : value),
    hd_error (collection "server" db) = Some first /\
    truthy (Some first) = true /\
    seed_server r = serialize_doc (Some first) /\
    seed_server r = Some sdoc /\
    dict_get "id" sdoc = Some (VStr sid) /\
    count_documents [("server_id", VStr sid)] (collection "channel" db) <> 0 /\
    seed_channels r =
      map (fun c => serialize_doc (Some c))
          (find [("server_id", VStr sid)] (collection "channel" db)) /\
    seed_channels r = Some fc :: rest /\
    dict_get "id" fc = Some cid /\
    count_documents [("channel_id", cid)] (collection "message" db) <> 0.

(** The store after one server was created on the empty store. *)
Definition one_server_db : database :=
  added "server"
    (stored (ServerIn.model_dump (ServerIn.Build "Mine" None None None)) empty_db)
    empty_db.

(** A document of a response exposes a store identifier: it is the
    serialization of a document [raw] of the store [db], its [id] is the
    string form of the [_id] of [raw], from which that identifier is read
    back, and it has no [_id] key. *)
Definition exposes_store_id (db : database) (r : option dict) : Prop :=
  exists (name : string) (raw d : dict) (o : ObjectId),
    In raw (collection name db) /\
    dict_get "_id" raw = Some (VOid o) /\
    serialize_doc (Some raw) = r /\
    r = Some d /\
    dict_get "id" d = Some (VStr (ObjectId_str o)) /\
    ObjectId_parse (ObjectId_str o) = Some o /\
    dict_get "_id" d = None.

(** Every stored identifier fits the 12 bytes of an ObjectId. *)
Definition ids_fit (w : world) : Prop :=
  match w with
  | None => True
  | Some db =>
      forall name,
        Forall (fun d => forall o, dict_get "_id" d = Some (VOid o) ->
                                   (oid_val o < 2 ^ 96)%N)
               (collection name db)
  end.

(** A document of a response is the serialization of a stored document. *)
Definition from_store (db : database) (r : option dict) : Prop :=
  exists (name : string) (raw : dict),
    In raw (collection name db) /\ r = serialize_doc (Some raw).

(* ===================================================================== *)
(** * Properties *)
(* ===================================================================== *)

(** ** Dicts *)

Lemma dict_get_set_same (k : string) (v : value) (d : dict) :
  dict_get k (dict_set k v d) = Some v.
Proof.
  induction d as [|[k' v'] t IH]; simpl.
  - now rewrite String.eqb_refl.
  - destruct (String.eqb k' k) eqn:E; simpl; rewrite E; auto.
Qed.

Lemma dict_get_set_other (k k' : string) (v : value) (d : dict) :
  k <> k' -> dict_get k' (dict_set k v d) = dict_get k' d.
Proof.
  intros Hne. induction d as [|[k0 v0] t IH]; simpl.
  - destruct (String.eqb_spec k k'); congruence.
  - destruct (String.eqb_spec k0 k) as [->|Hk]; simpl.
    + destruct (String.eqb_spec k k'); congruence.
    + now rewrite IH.
Qed.

Lemma dict_get_None_notin (k : string) (d : dict) :
  dict_get k d = None <-> ~ In k (dict_keys d).
Proof.
  induction d as [|[k' v'] t IH]; simpl.
  - tauto.
  - destruct (String.eqb_spec k' k) as [->|Hk].
    + split; [discriminate | intros H; exfalso; apply H; now left].
    + rewrite IH. split.
      * intros H [E|E]; [congruence | tauto].
      * intros H E. apply H. now right.
Qed.

Lemma dict_set_fresh (k : string) (v : value) (d : dict) :
  dict_get k d = None -> dict_set k v d = d ++ [(k, v)].
Proof.
  induction d as [|[k' v'] t IH]; simpl; auto.
  destruct (String.eqb k' k); [discriminate|].
  intros H. now rewrite IH.
Qed.

Lemma dict_set_nonempty (k : string) (v : value) (d : dict) :
  dict_set k v d <> [].
Proof.
  destruct d as [|[k' v'] t]; simpl; [discriminate|].
  destruct (String.eqb k' k); discriminate.
Qed.

Lemma dict_keys_set (k : string) (v : value) (d : dict) :
  dict_keys (dict_set k v d) =
  if dict_has k d then dict_keys d else dict_keys d ++ [k].
Proof.
  unfold dict_has. induction d as [|[k' v'] t IH]; simpl; auto.
  destruct (String.eqb k' k) eqn:E; simpl; auto.
  rewrite IH. now destruct (dict_get k t).
Qed.

Lemma dict_get_del_same (k : string) (d : dict) :
  dict_get k (dict_del k d) = None.
Proof.
  induction d as [|[k' v'] t IH]; simpl; auto.
  destruct (String.eqb k' k) eqn:E; simpl; auto. now rewrite E.
Qed.

Lemma dict_get_del_other (k k' : string) (d : dict) :
  k <> k' -> dict_get k' (dict_del k d) = dict_get k' d.
Proof.
  intros Hne. induction d as [|[k0 v0] t IH]; simpl; auto.
  destruct (String.eqb_spec k0 k) as [->|Hk]; simpl.
  - destruct (String.eqb_spec k k'); congruence.
  - now rewrite IH.
Qed.

Lemma value_eqb_str (v : value) (s : string) :
  value_eqb v (VStr s) = true <-> v = VStr s.
Proof.
  destruct v; simpl; split; try discriminate; intros H.
  - apply String.eqb_eq in H. now subst.
  - injection H as ->. apply String.eqb_refl.
Qed.

Lemma value_eqb_oid (v : value) (o : ObjectId) :
  value_eqb v (VOid o) = true <-> v = VOid o.
Proof.
  destruct v as [| | | |[n]| | |]; destruct o as [m]; simpl; split;
    try discriminate; intros H.
  - apply N.eqb_eq in H. now subst.
  - injection H as ->. apply N.eqb_refl.
Qed.

(** ** Serialization *)

Lemma serialize_id_idem (v : value) :
  serialize_id (serialize_id v) = serialize_id v.
Proof. now destruct v. Qed.

Lemma serialize_item_rename (out : dict) (k : string) (v : value) :
  serialize_item out (k, v) = dict_set (rename k) (serialize_id v) out.
Proof.
  unfold serialize_item, rename; simpl. now destruct (String.eqb k "_id").
Qed.

Lemma rename_not_id (k : string) : rename k <> "_id".
Proof.
  unfold rename. destruct (String.eqb_spec k "_id"); [discriminate | auto].
Qed.

Lemma serialize_items_get (d out : dict) (k' : string) :
  dict_get k' (serialize_items d out) =
  match last_binding k' d with
  | Some v => Some (serialize_id v)
  | None => dict_get k' out
  end.
Proof.
  revert out. induction d as [|[k v] t IH]; intros out; simpl; auto.
  unfold serialize_items in *; simpl. rewrite IH.
  destruct (last_binding k' t); auto.
  rewrite serialize_item_rename.
  destruct (String.eqb_spec (rename k) k') as [<-|Hne].
  - apply dict_get_set_same.
  - now apply dict_get_set_other.
Qed.

Lemma serialize_items_nonempty (d out : dict) :
  d <> [] -> serialize_items d out <> [].
Proof.
  revert out. induction d as [|[k v] t IH]; intros out H; [congruence|].
  unfold serialize_items in *; simpl.
  destruct t as [|kv t'].
  - simpl. rewrite serialize_item_rename. apply dict_set_nonempty.
  - apply IH. discriminate.
Qed.

Lemma dict_set_NoDup (k : string) (v : value) (d : dict) :
  NoDup (dict_keys d) -> NoDup (dict_keys (dict_set k v d)).
Proof.
  induction d as [|[k' v'] t IH]; simpl; intros H.
  - constructor; [tauto | constructor].
  - inversion H as [|? ? Hnotin Hnd]; subst.
    destruct (String.eqb_spec k' k) as [->|Hk]; simpl.
    + now constructor.
    + constructor; [|auto].
      apply dict_get_None_notin. rewrite dict_get_set_other by congruence.
      now apply dict_get_None_notin.
Qed.

Lemma dict_set_Forall (P : string * value -> Prop) (k : string) (v : value)
    (d : dict) :
  (forall k0, P (k0, v)) -> Forall P d -> Forall P (dict_set k v d).
Proof.
  intros Hv. induction d as [|[k' v'] t IH]; simpl; intros H.
  - constructor; auto.
  - inversion H; subst. destruct (String.eqb k' k); constructor; auto.
Qed.

Lemma dict_set_plain (k : string) (v : value) (d : dict) :
  plain d -> plain (dict_set (rename k) (serialize_id v) d).
Proof.
  intros (Hnd & Hid & Hv). repeat split.
  - now apply dict_set_NoDup.
  - rewrite dict_get_set_other; [auto | apply rename_not_id].
  - apply dict_set_Forall; auto. intros; simpl. apply serialize_id_idem.
Qed.

Lemma serialize_items_plain (d out : dict) :
  plain out -> plain (serialize_items d out).
Proof.
  revert out. induction d as [|[k v] t IH]; intros out H; simpl; auto.
  unfold serialize_items in *; simpl. apply IH.
  rewrite serialize_item_rename. now apply dict_set_plain.
Qed.

Lemma plain_nil : plain [].
Proof. repeat split; simpl; constructor. Qed.

Lemma serialize_items_fixed (d out : dict) :
  NoDup (dict_keys (out ++ d)) ->
  dict_get "_id" d = None ->
  Forall (fun kv => serialize_id (snd kv) = snd kv) d ->
  serialize_items d out = out ++ d.
Proof.
  revert out. induction d as [|[k v] t IH]; intros out Hnd Hid Hv.
  - simpl. now rewrite app_nil_r.
  - unfold serialize_items in *; simpl in *.
    inversion Hv as [|? ? Hv1 Hv2]; subst. simpl in Hv1.
    unfold serialize_item; simpl.
    destruct (String.eqb k "_id") eqn:E; [discriminate|].
    rewrite Hv1.
    assert (Hfresh : dict_get k out = None).
    { apply dict_get_None_notin. intros Hin.
      unfold dict_keys in Hnd. rewrite map_app in Hnd; simpl in Hnd.
      apply NoDup_remove_2 in Hnd. apply Hnd. apply in_or_app. now left. }
    rewrite dict_set_fresh by assumption.
    rewrite IH; auto.
    + now rewrite <- app_assoc.
    + now rewrite <- app_assoc.
Qed.

Lemma serialize_doc_plain (d : dict) :
  plain d -> serialize_doc (Some d) = Some d.
Proof.
  intros (Hnd & Hid & Hv). destruct d as [|kv t]; [reflexivity|].
  unfold serialize_doc. f_equal.
  now apply (serialize_items_fixed (kv :: t) []).
Qed.

(** C6: serializing twice is serializing once, for every document; a
    document already in transport form (unique keys, no [_id] key, no
    ObjectId value) is returned as it is, and so is [None]. *)
Theorem serialize_doc_idempotent :
  (forall doc : option dict,
      serialize_doc (serialize_doc doc) = serialize_doc doc) /\
  (forall d : dict, plain d -> serialize_doc (Some d) = Some d) /\
  serialize_doc None = None.
Proof.
  split; [|split; [exact serialize_doc_plain | reflexivity]].
  intros [[|kv t]|]; try reflexivity.
  change (serialize_doc (Some (kv :: t)))
    with (Some (serialize_items (kv :: t) [])).
  apply serialize_doc_plain. apply serialize_items_plain, plain_nil.
Qed.

Lemma plain_example :
  plain [("id", VStr "000000000000000000000001"); ("name", VStr "Test");
         ("member_ids", VList [])].
Proof.
  repeat split; simpl.
  - repeat constructor; simpl; intuition discriminate.
  - repeat constructor.
Qed.

Lemma serialize_doc_idempotent_witness :
  serialize_doc (Some [("id", VStr "000000000000000000000001");
                       ("name", VStr "Test"); ("member_ids", VList [])]) =
  Some [("id", VStr "000000000000000000000001"); ("name", VStr "Test");
        ("member_ids", VList [])].
Proof.
  exact (proj1 (proj2 serialize_doc_idempotent) _ plain_example).
Defined.

Lemma last_binding_other_key (d : dict) (k : string) :
  NoDup (dict_keys d) -> k <> "id" -> k <> "_id" ->
  last_binding k d = dict_get k d.
Proof.
  intros Hnd Hid Hid'. induction d as [|[k0 v0] t IH]; simpl; auto.
  inversion Hnd as [|? ? Hnotin Hnd']; subst.
  rewrite (IH Hnd').
  destruct (String.eqb_spec k0 k) as [->|Hk].
  - apply dict_get_None_notin in Hnotin. rewrite Hnotin.
    unfold rename. destruct (String.eqb_spec k "_id"); [contradiction|].
    now rewrite String.eqb_refl.
  - destruct (dict_get k t); auto.
    unfold rename. destruct (String.eqb_spec k0 "_id").
    + destruct (String.eqb_spec "id" k); congruence.
    + destruct (String.eqb_spec k0 k); congruence.
Qed.

Lemma serialize_doc_get_other (d : dict) (k : string) (v : value) :
  NoDup (dict_keys d) -> k <> "_id" -> k <> "id" ->
  dict_get k d = Some v ->
  exists out, serialize_doc (Some d) = Some out /\
              dict_get k out = Some (serialize_id v).
Proof.
  intros Hnd H1 H2 Hget. destruct d as [|kv t]; [discriminate|].
  eexists; split; [reflexivity|].
  rewrite serialize_items_get, last_binding_other_key by auto.
  now rewrite Hget.
Qed.

(** C9: only top-level values are converted.  A list or mapping is returned
    as it is, whatever it holds: an ObjectId inside [member_ids],
    [attachments] or [reactions] is still an ObjectId in the output. *)
Theorem serialize_doc_top_level_only :
  (forall v : value, nested v -> serialize_id v = v) /\
  (forall (d : dict) (k : string) (v : value),
      NoDup (dict_keys d) -> k <> "_id" -> k <> "id" ->
      dict_get k d = Some v -> nested v ->
      exists out, serialize_doc (Some d) = Some out /\ dict_get k out = Some v) /\
  serialize_doc
    (Some [("_id", VOid (Oid 1)); ("member_ids", VList [VOid (Oid 2)]);
           ("reactions", VDict [("seen", VOid (Oid 3))])]) =
  Some [("id", VStr "000000000000000000000001");
        ("member_ids", VList [VOid (Oid 2)]);
        ("reactions", VDict [("seen", VOid (Oid 3))])].
Proof.
  split; [|split].
  - intros v Hv. destruct v; simpl in *; tauto.
  - intros d k v Hnd H1 H2 Hget Hv.
    destruct (serialize_doc_get_other d k v Hnd H1 H2 Hget) as (out & E & G).
    exists out. split; auto. rewrite G. f_equal.
    destruct v; simpl in *; tauto.
  - reflexivity.
Qed.

Lemma serialize_doc_top_level_only_witness :
  exists out,
    serialize_doc
      (Some [("_id", VOid (Oid 7)); ("attachments", VList [VOid (Oid 9)])]) =
    Some out /\
    dict_get "attachments" out = Some (VList [VOid (Oid 9)]).
Proof.
  apply (proj1 (proj2 serialize_doc_top_level_only)
           [("_id", VOid (Oid 7)); ("attachments", VList [VOid (Oid 9)])]
           "attachments" (VList [VOid (Oid 9)])).
  - repeat constructor; simpl; intuition discriminate.
  - discriminate.
  - discriminate.
  - reflexivity.
  - exact I.
Defined.

(** ** ObjectId strings *)

Lemma hex_value_digit (d : N) :
  (d < 16)%N -> Hex.hex_value (Hex.hex_digit d) = Some d.
Proof.
  intros H.
  assert (E : In d (map N.of_nat (seq 0 16))).
  { apply in_map_iff. exists (N.to_nat d). split; [apply N2Nat.id|].
    apply in_seq. lia. }
  simpl in E.
  repeat (destruct E as [<-|E]; [reflexivity|]). contradiction.
Qed.

Lemma from_hex_to_hex (k : nat) :
  forall (n : N) (acc : string) (a : N),
    Hex.from_hex (Hex.to_hex k n acc) a =
    Hex.from_hex acc (a * 16 ^ N.of_nat k + n mod 16 ^ N.of_nat k)%N.
Proof.
  induction k as [|k IH]; intros n acc a.
  - simpl. rewrite N.mod_1_r. f_equal. lia.
  - cbn [Hex.to_hex]. rewrite IH. cbn [Hex.from_hex].
    rewrite hex_value_digit by (apply N.mod_lt; lia).
    f_equal.
    rewrite Nat2N.inj_succ, N.pow_succ_r'.
    rewrite (N.Div0.mod_mul_r n 16 (16 ^ N.of_nat k)). lia.
Qed.

Lemma length_to_hex (k : nat) :
  forall (n : N) (acc : string),
    String.length (Hex.to_hex k n acc) = k + String.length acc.
Proof.
  induction k as [|k IH]; intros n acc; simpl; auto.
  rewrite IH. simpl. lia.
Qed.

Lemma ObjectId_str_length (o : ObjectId) :
  String.length (ObjectId_str o) = 24.
Proof. unfold ObjectId_str. now rewrite length_to_hex. Qed.

Lemma ObjectId_parse_str (n : N) :
  ObjectId_parse (ObjectId_str (Oid n)) = Some (Oid (n mod 2 ^ 96)).
Proof.
  unfold ObjectId_parse, ObjectId_is_valid.
  rewrite ObjectId_str_length. unfold ObjectId_str; simpl oid_val.
  rewrite from_hex_to_hex. cbn [Hex.from_hex Nat.eqb andb option_map].
  reflexivity.
Qed.

Lemma hex_value_not_space (c : ascii) (d : N) :
  Hex.hex_value c = Some d -> Hex.is_space c = false.
Proof.
  destruct c as [[] [] [] [] [] [] [] []]; vm_compute;
    intros H; try reflexivity; discriminate H.
Qed.

Lemma fromhex_of_digits (k : nat) :
  forall (s : string) (acc n : N),
    String.length s <= k ->
    Nat.even (String.length s) = true ->
    Hex.from_hex s acc = Some n ->
    exists bytes, Hex.fromhex s = Some bytes.
Proof.
  induction k as [|k IH]; intros [|c [|c' s]] acc n Hlen Hev Hhex;
    simpl in *; try lia; try discriminate; try (now exists []).
  destruct (Hex.hex_value c) as [hi|] eqn:Ec; [|discriminate].
  destruct (Hex.hex_value c') as [lo|] eqn:Ec'; [|discriminate].
  rewrite (hex_value_not_space c hi Ec).
  destruct k as [|k']; [lia|].
  assert (Hk : forall s0 acc0 n0,
             String.length s0 <= k' -> Nat.even (String.length s0) = true ->
             Hex.from_hex s0 acc0 = Some n0 ->
             exists bytes, Hex.fromhex s0 = Some bytes).
  { intros s0 acc0 n0 H1 H2 H3. apply (IH s0 acc0 n0); auto. }
  assert (Hb : exists bytes, Hex.fromhex s = Some bytes).
  { eapply Hk; [lia | assumption | exact Hhex]. }
  destruct Hb as [bytes Hb]. rewrite Hb. now eexists.
Qed.

Lemma ObjectId_parse_valid (s : string) (o : ObjectId) :
  ObjectId_parse s = Some o -> ObjectId_is_valid s = true.
Proof.
  unfold ObjectId_parse, ObjectId_is_valid.
  destruct (Nat.eqb_spec (String.length s) 24) as [E|]; [|discriminate].
  destruct (Hex.from_hex s 0%N) as [n|] eqn:Eh; [|discriminate].
  intros _.
  destruct (fromhex_of_digits 24 s 0%N n) as [bytes ->]; auto.
  - lia.
  - now rewrite E.
Qed.

Lemma ObjectId_parse_fresh (db : database) :
  ObjectId_parse (ObjectId_str (fresh_oid db)) = Some (fresh_oid db).
Proof.
  unfold fresh_oid. rewrite ObjectId_parse_str.
  now rewrite N.Div0.mod_mod.
Qed.

(** ** The store *)

Lemma coll_get_set_same (name : string) (docs : list dict)
    (cs : list (string * list dict)) :
  coll_get name (coll_set name docs cs) = docs.
Proof.
  induction cs as [|[n ds] t IH]; simpl.
  - now rewrite String.eqb_refl.
  - destruct (String.eqb n name) eqn:E; simpl; now rewrite E.
Qed.

Lemma coll_get_set_other (name name' : string) (docs : list dict)
    (cs : list (string * list dict)) :
  name <> name' -> coll_get name' (coll_set name docs cs) = coll_get name' cs.
Proof.
  intros Hne. induction cs as [|[n ds] t IH]; simpl.
  - destruct (String.eqb_spec name name'); congruence.
  - destruct (String.eqb_spec n name) as [->|Hn]; simpl.
    + destruct (String.eqb_spec name name'); congruence.
    + now rewrite IH.
Qed.

Lemma collection_added_same (name : string) (doc : dict) (db : database) :
  collection name (added name doc db) = collection name db ++ [doc].
Proof. unfold collection, added; simpl. apply coll_get_set_same. Qed.

Lemma collection_added_other (name name' : string) (doc : dict) (db : database) :
  name <> name' -> collection name' (added name doc db) = collection name' db.
Proof. intros H. unfold collection, added; simpl. now apply coll_get_set_other. Qed.

Lemma create_document_run (name : string) (data : dict) (db : database) :
  create_document name data (Some db) =
  (Ok (ObjectId_str (fresh_oid db)), Some (added name (stored data db) db)).
Proof. reflexivity. Qed.

Lemma matches_id (o : ObjectId) (d : dict) :
  matches [("_id", VOid o)] d = true <-> dict_get "_id" d = Some (VOid o).
Proof.
  unfold matches; simpl. rewrite andb_true_r.
  destruct (dict_get "_id" d) as [v|].
  - rewrite value_eqb_oid. split; congruence.
  - simpl. split; discriminate.
Qed.

Lemma matches_str (k s : string) (d : dict) :
  matches [(k, VStr s)] d = true <-> dict_get k d = Some (VStr s).
Proof.
  unfold matches; simpl. rewrite andb_true_r.
  destruct (dict_get k d) as [v|].
  - rewrite value_eqb_str. split; congruence.
  - simpl. split; discriminate.
Qed.

Lemma find_one_In (flt : dict) (docs : list dict) (d : dict) :
  find_one flt docs = Some d -> In d docs /\ matches flt d = true.
Proof.
  unfold find_one, find. intros H.
  apply filter_In. destruct (filter (matches flt) docs) eqn:E; [discriminate|].
  injection H as ->. now left.
Qed.

Lemma find_one_last_some (flt : dict) (docs : list dict) (doc : dict) :
  matches flt doc = true ->
  exists d, find_one flt (docs ++ [doc]) = Some d.
Proof.
  intros Hm. unfold find_one, find. rewrite filter_app; simpl. rewrite Hm.
  destruct (filter (matches flt) docs); simpl; eauto.
Qed.

Lemma find_one_last_fresh (flt : dict) (docs : list dict) (doc : dict) :
  Forall (fun d => matches flt d <> true) docs ->
  matches flt doc = true ->
  find_one flt (docs ++ [doc]) = Some doc.
Proof.
  intros Hf Hm. unfold find_one, find. rewrite filter_app; simpl. rewrite Hm.
  replace (filter (matches flt) docs) with (@nil dict); [reflexivity|].
  induction Hf as [|d t Hd Ht IH]; simpl; auto.
  destruct (matches flt d); [congruence | auto].
Qed.

Lemma stored_id (data : dict) (db : database) :
  dict_get "_id" (stored data db) = Some (VOid (fresh_oid db)).
Proof. reflexivity. Qed.

Lemma read_back_fresh (name : string) (data : dict) (db : database) :
  fresh_id name db ->
  find_one [("_id", VOid (fresh_oid db))] (collection name db ++ [stored data db])
  = Some (stored data db).
Proof.
  intros Hf. apply find_one_last_fresh.
  - unfold fresh_id in Hf. eapply Forall_impl; [|exact Hf].
    intros d Hd Hm. apply Hd. now apply matches_id.
  - now apply matches_id.
Qed.

Lemma ObjectId_new_fresh (db : database) (w : world) :
  ObjectId_new (ObjectId_str (fresh_oid db)) w = (Ok (Some (fresh_oid db)), w).
Proof.
  unfold ObjectId_new.
  rewrite (ObjectId_parse_valid _ _ (ObjectId_parse_fresh db)).
  rewrite ObjectId_parse_fresh. reflexivity.
Qed.

(** What the three creating handlers do after building [data]: insert, then
    read the document back by its identifier. *)
Lemma create_then_fetch (name : string) (data : dict) (db : database) :
  (id <- create_document name data ;;
   coll <- db_collection name ;;
   oid <- ObjectId_new id ;;
   ret (serialize_doc (find_by_oid oid coll))) (Some db) =
  (Ok (serialize_doc
         (find_one [("_id", VOid (fresh_oid db))]
                   (collection name db ++ [stored data db]))),
   Some (added name (stored data db) db)).
Proof.
  unfold bind at 1. rewrite create_document_run.
  unfold bind at 1. unfold db_collection at 1.
  unfold bind at 1. rewrite ObjectId_new_fresh.
  unfold ret. now rewrite collection_added_same.
Qed.

Lemma create_server_run (p : ServerIn.t) (db : database) :
  create_server p (Some db) =
  (Ok (serialize_doc
         (find_one [("_id", VOid (fresh_oid db))]
            (collection "server" db ++ [stored (ServerIn.model_dump p) db]))),
   Some (added "server" (stored (ServerIn.model_dump p) db) db)).
Proof. apply create_then_fetch. Qed.

Lemma create_channel_run (sid : value) (p : ChannelIn.t) (db : database) :
  let data := dict_set "server_id" sid (ChannelIn.model_dump p) in
  create_channel sid p (Some db) =
  (Ok (serialize_doc
         (find_one [("_id", VOid (fresh_oid db))]
            (collection "channel" db ++ [stored data db]))),
   Some (added "channel" (stored data db) db)).
Proof. apply create_then_fetch. Qed.

Lemma send_message_run (cid : value) (p : MessageIn.t) (db : database) :
  let data := dict_set "channel_id" cid (MessageIn.model_dump p) in
  send_message cid p (Some db) =
  (Ok (serialize_doc
         (find_one [("_id", VOid (fresh_oid db))]
            (collection "message" db ++ [stored data db]))),
   Some (added "message" (stored data db) db)).
Proof.
  intros data. unfold send_message.
  unfold bind at 1. unfold db_collection at 1.
  apply create_then_fetch.
Qed.

(** ** Creating a server *)

Lemma field_opt_str_value (k : string) (body : dict) (o : option string) :
  field_opt_str k body = Ok o -> opt_str o = field_or_null k body.
Proof.
  unfold field_opt_str, field_or_null.
  destruct (dict_get k body) as [[]|]; intros H; try discriminate;
    injection H as <-; reflexivity.
Qed.

Lemma field_str_value (k : string) (body : dict) (s : string) :
  field_str k body = Ok s -> dict_get k body = Some (VStr s).
Proof.
  unfold field_str.
  destruct (dict_get k body) as [[]|]; intros H; try discriminate.
  now injection H as <-.
Qed.

Lemma ServerIn_validate_fields (body : dict) (p : ServerIn.t) :
  ServerIn.validate body = Ok p ->
  dict_get "name" body = Some (VStr (ServerIn.name p)) /\
  opt_str (ServerIn.icon_url p) = field_or_null "icon_url" body /\
  opt_str (ServerIn.description p) = field_or_null "description" body /\
  opt_str (ServerIn.owner_id p) = field_or_null "owner_id" body.
Proof.
  unfold ServerIn.validate.
  destruct (field_str "name" body) eqn:E1; [|discriminate].
  destruct (field_opt_str "icon_url" body) eqn:E2; [|discriminate].
  destruct (field_opt_str "description" body) eqn:E3; [|discriminate].
  destruct (field_opt_str "owner_id" body) eqn:E4; [|discriminate].
  intros H; injection H as <-; simpl.
  auto using field_str_value, field_opt_str_value.
Qed.

Lemma serialize_id_opt_str (o : option string) :
  serialize_id (opt_str o) = opt_str o.
Proof. now destruct o. Qed.

(** C1, as the code has it: the response of [POST /api/servers] is the
    stored document with its identifier under [id], a string of 24
    characters, the four fields of [ServerIn] as sent (an optional field that
    was left out is [null]) and the creation time; it has no [member_ids]
    field, and the document is the last of the server collection. *)
Theorem create_server_response :
  forall (db : database) (body : dict) (p : ServerIn.t),
    fresh_id "server" db ->
    ServerIn.validate body = Ok p ->
    exists (id : string) (doc : dict) (db' : database),
      post_api_servers body (Some db) = (Ok (Some doc), Some db') /\
      doc = [("id", VStr id);
             ("name", VStr (ServerIn.name p));
             ("icon_url", opt_str (ServerIn.icon_url p));
             ("description", opt_str (ServerIn.description p));
             ("owner_id", opt_str (ServerIn.owner_id p));
             ("created_at", VDate (clock db))] /\
      String.length id = 24 /\
      dict_get "name" doc = dict_get "name" body /\
      dict_get "icon_url" doc = Some (field_or_null "icon_url" body) /\
      dict_get "description" doc = Some (field_or_null "description" body) /\
      dict_get "owner_id" doc = Some (field_or_null "owner_id" body) /\
      dict_get "member_ids" doc = None /\
      exists raw : dict,
        collection "server" db' = collection "server" db ++ [raw] /\
        serialize_doc (Some raw) = Some doc.
Proof.
  intros db body p Hfresh Hval.
  destruct (ServerIn_validate_fields body p Hval) as (Hn & Hi & Hd & Ho).
  pose (raw := stored (ServerIn.model_dump p) db).
  assert (Hser : serialize_doc (Some raw) =
                 Some [("id", VStr (ObjectId_str (fresh_oid db)));
                       ("name", VStr (ServerIn.name p));
                       ("icon_url", opt_str (ServerIn.icon_url p));
                       ("description", opt_str (ServerIn.description p));
                       ("owner_id", opt_str (ServerIn.owner_id p));
                       ("created_at", VDate (clock db))]).
  { unfold raw, stored, ServerIn.model_dump. cbn -[ObjectId_str].
    now rewrite !serialize_id_opt_str. }
  exists (ObjectId_str (fresh_oid db)). eexists. exists (added "server" raw db).
  split.
  { unfold post_api_servers. rewrite Hval. cbn [validated].
    rewrite create_server_run, read_back_fresh by assumption.
    fold raw. rewrite Hser. reflexivity. }
  split; [reflexivity|].
  split; [apply ObjectId_str_length|].
  cbn -[ObjectId_str]. rewrite Hn, <- Hi, <- Hd, <- Ho.
  repeat (split; [reflexivity|]).
  exists raw. split; [apply collection_added_same | exact Hser].
Qed.

Lemma fresh_id_empty (name : string) : fresh_id name empty_db.
Proof. constructor. Qed.

Lemma create_server_response_witness :
  exists (id : string) (doc : dict) (db' : database),
    post_api_servers [("name", VStr "Test")] (Some empty_db) =
      (Ok (Some doc), Some db') /\
    doc = [("id", VStr id); ("name", VStr "Test"); ("icon_url", VNone);
           ("description", VNone); ("owner_id", VNone);
           ("created_at", VDate 0)] /\
    String.length id = 24 /\
    dict_get "name" doc = Some (VStr "Test") /\
    dict_get "icon_url" doc = Some VNone /\
    dict_get "description" doc = Some VNone /\
    dict_get "owner_id" doc = Some VNone /\
    dict_get "member_ids" doc = None /\
    exists raw : dict,
      collection "server" db' = [raw] /\ serialize_doc (Some raw) = Some doc.
Proof.
  exact (create_server_response empty_db [("name", VStr "Test")]
           (ServerIn.Build "Test" None None None)
           (fresh_id_empty "server") eq_refl).
Defined.

(** C1 as the spec words it fails: the response to [{"name": "Test"}] has
    no [member_ids] field at all, so it is not the document with
    [member_ids] defaulted to the empty list. *)
Lemma create_server_has_no_member_ids :
  exists (doc : dict) (w : world),
    post_api_servers [("name", VStr "Test")] (Some empty_db) = (Ok (Some doc), w) /\
    doc = [("id", VStr "000000000000000000000000"); ("name", VStr "Test");
           ("icon_url", VNone); ("description", VNone); ("owner_id", VNone);
           ("created_at", VDate 0)] /\
    dict_get "member_ids" doc = None /\
    dict_get "member_ids" doc <> Some (VList []).
Proof.
  eexists. eexists. split; [vm_compute; reflexivity|].
  split; [reflexivity|]. split; [reflexivity | discriminate].
Qed.

(** ** Creating a channel *)

Lemma ChannelIn_validate_agree (body body' : dict) :
  (forall k, k <> "server_id" -> dict_get k body' = dict_get k body) ->
  ChannelIn.validate body' = ChannelIn.validate body.
Proof.
  intros H. unfold ChannelIn.validate, field_str, field_opt_str, field_bool.
  now rewrite !H by discriminate.
Qed.

Lemma create_channel_serialized (sid : string) (p : ChannelIn.t) (db : database) :
  serialize_doc
    (Some (stored (dict_set "server_id" (VStr sid) (ChannelIn.model_dump p)) db)) =
  Some [("id", VStr (ObjectId_str (fresh_oid db)));
        ("name", VStr (ChannelIn.name p));
        ("type", VStr (ChannelIn.type p));
        ("topic", opt_str (ChannelIn.topic p));
        ("is_private", VBool (ChannelIn.is_private p));
        ("server_id", VStr sid);
        ("created_at", VDate (clock db))].
Proof.
  unfold stored, ChannelIn.model_dump. cbn -[ObjectId_str].
  now rewrite serialize_id_opt_str.
Qed.

Lemma find_last_matching (flt : dict) (docs : list dict) (doc : dict) :
  matches flt doc = true -> In doc (find flt (docs ++ [doc])).
Proof.
  intros H. unfold find. rewrite filter_app. apply in_or_app. right.
  simpl. rewrite H. now left.
Qed.

(** C4: for every path parameter and every [ChannelIn] payload, which is
    what validation makes of a valid body whatever coercions it applied, the
    channel that [POST /api/servers/{server_id}/channels] stores and returns
    has the [server_id] of the path and is among the channels listed for
    that server afterwards; a body that validates to the payload is served by
    the handler on that payload, and the outcome of the request does not
    depend on a [server_id] field of the body. *)
Theorem create_channel_server_id_from_path :
  forall (db : database) (server_id : string) (p : ChannelIn.t),
    fresh_id "channel" db ->
    (exists (doc raw : dict) (db' : database) (listed : list (option dict)),
        create_channel (VStr server_id) p (Some db) = (Ok (Some doc), Some db') /\
        dict_get "server_id" doc = Some (VStr server_id) /\
        dict_get "name" doc = Some (VStr (ChannelIn.name p)) /\
        collection "channel" db' = collection "channel" db ++ [raw] /\
        dict_get "server_id" raw = Some (VStr server_id) /\
        serialize_doc (Some raw) = Some doc /\
        list_channels (VStr server_id) (Some db') = (Ok listed, Some db') /\
        In (Some doc) listed) /\
    (forall body : dict,
        ChannelIn.validate body = Ok p ->
        post_api_channels server_id body (Some db) =
        create_channel (VStr server_id) p (Some db)) /\
    (forall body body' : dict,
        (forall k, k <> "server_id" -> dict_get k body' = dict_get k body) ->
        post_api_channels server_id body' (Some db) =
        post_api_channels server_id body (Some db)).
Proof.
  intros db sid p Hfresh. split; [|split].
  - pose (raw := stored (dict_set "server_id" (VStr sid) (ChannelIn.model_dump p)) db).
    pose proof (create_channel_serialized sid p db) as Hser. fold raw in Hser.
    eexists. exists raw. exists (added "channel" raw db). eexists.
    split.
    { rewrite create_channel_run, read_back_fresh by assumption.
      fold raw. rewrite Hser. reflexivity. }
    split; [reflexivity|]. split; [reflexivity|].
    split; [apply collection_added_same|].
    split; [reflexivity|]. split; [exact Hser|].
    split; [reflexivity|].
    rewrite collection_added_same.
    apply in_map_iff. exists raw. split; [exact Hser|].
    apply find_last_matching. now apply matches_str.
  - intros body Hval. unfold post_api_channels. now rewrite Hval.
  - intros body body' Hagree. unfold post_api_channels.
    now rewrite (ChannelIn_validate_agree body body').
Qed.

Lemma create_channel_server_id_from_path_witness :
  ChannelIn.validate
    [("name", VStr "general"); ("server_id", VStr "other");
     ("is_private", VStr "TRUE")] =
  Ok (ChannelIn.Build "general" "text" None true) /\
  ((exists (doc raw : dict) (db' : database) (listed : list (option dict)),
       create_channel (VStr "s1") (ChannelIn.Build "general" "text" None true)
         (Some empty_db) = (Ok (Some doc), Some db') /\
       dict_get "server_id" doc = Some (VStr "s1") /\
       dict_get "name" doc = Some (VStr "general") /\
       collection "channel" db' = [raw] /\
       dict_get "server_id" raw = Some (VStr "s1") /\
       serialize_doc (Some raw) = Some doc /\
       list_channels (VStr "s1") (Some db') = (Ok listed, Some db') /\
       In (Some doc) listed) /\
   (forall body : dict,
       ChannelIn.validate body = Ok (ChannelIn.Build "general" "text" None true) ->
       post_api_channels "s1" body (Some empty_db) =
       create_channel (VStr "s1") (ChannelIn.Build "general" "text" None true)
         (Some empty_db)) /\
   (forall body body' : dict,
       (forall k, k <> "server_id" -> dict_get k body' = dict_get k body) ->
       post_api_channels "s1" body' (Some empty_db) =
       post_api_channels "s1" body (Some empty_db))).
Proof.
  split; [reflexivity|].
  exact (create_channel_server_id_from_path empty_db "s1"
           (ChannelIn.Build "general" "text" None true)
           (fresh_id_empty "channel")).
Defined.

(** ** Sending a message *)

Lemma collection_with_channels (name : string) (chans : list dict) (db : database) :
  name <> "channel" ->
  collection name (with_channels chans db) = collection name db.
Proof.
  intros H. unfold collection, with_channels; simpl.
  apply coll_get_set_other. congruence.
Qed.

Lemma send_message_serialized (cid : string) (p : MessageIn.t) (db : database) :
  serialize_doc
    (Some (stored (dict_set "channel_id" (VStr cid) (MessageIn.model_dump p)) db)) =
  Some [("id", VStr (ObjectId_str (fresh_oid db)));
        ("author_id", VStr (MessageIn.author_id p));
        ("author_name", VStr (MessageIn.author_name p));
        ("content", VStr (MessageIn.content p));
        ("attachments", VList (map VStr (MessageIn.attachments p)));
        ("channel_id", VStr cid);
        ("created_at", VDate (clock db))].
Proof.
  unfold stored, MessageIn.model_dump. cbn -[ObjectId_str]. reflexivity.
Qed.

(** C5: a message sent to a channel that does not exist is stored and
    returned with the [channel_id] of the path; the response is the same
    whatever the channel collection holds. *)
Theorem send_message_unknown_channel :
  forall (db : database) (channel_id : string) (p : MessageIn.t),
    fresh_id "message" db ->
    lookup_channel (VStr channel_id) (collection "channel" db) = None ->
    (exists (doc raw : dict) (db' : database),
        send_message (VStr channel_id) p (Some db) = (Ok (Some doc), Some db') /\
        dict_get "channel_id" doc = Some (VStr channel_id) /\
        dict_get "content" doc = Some (VStr (MessageIn.content p)) /\
        collection "message" db' = collection "message" db ++ [raw] /\
        serialize_doc (Some raw) = Some doc) /\
    (forall chans : list dict,
        fst (send_message (VStr channel_id) p (Some (with_channels chans db))) =
        fst (send_message (VStr channel_id) p (Some db))).
Proof.
  intros db cid p Hfresh _. split.
  - pose (raw := stored (dict_set "channel_id" (VStr cid) (MessageIn.model_dump p)) db).
    pose proof (send_message_serialized cid p db) as Hser. fold raw in Hser.
    eexists. exists raw. exists (added "message" raw db).
    split.
    { rewrite send_message_run, read_back_fresh by assumption.
      fold raw. rewrite Hser. reflexivity. }
    split; [reflexivity|]. split; [reflexivity|].
    split; [apply collection_added_same | exact Hser].
  - intros chans. rewrite !send_message_run. cbn [fst].
    rewrite collection_with_channels by discriminate. reflexivity.
Qed.

Lemma send_message_unknown_channel_witness :
  (exists (doc raw : dict) (db' : database),
      send_message (VStr "no-such-channel")
        (MessageIn.Build "u1" "Ann" "hello" []) (Some empty_db) =
        (Ok (Some doc), Some db') /\
      dict_get "channel_id" doc = Some (VStr "no-such-channel") /\
      dict_get "content" doc = Some (VStr "hello") /\
      collection "message" db' = [raw] /\
      serialize_doc (Some raw) = Some doc) /\
  (forall chans : list dict,
      fst (send_message (VStr "no-such-channel")
             (MessageIn.Build "u1" "Ann" "hello" []) (Some (with_channels chans empty_db))) =
      fst (send_message (VStr "no-such-channel")
             (MessageIn.Build "u1" "Ann" "hello" []) (Some empty_db))).
Proof.
  exact (send_message_unknown_channel empty_db "no-such-channel"
           (MessageIn.Build "u1" "Ann" "hello" [])
           (fresh_id_empty "message") eq_refl).
Defined.

(** ** Listing messages *)

Lemma bson_le_total (a b : value) :
  bson_le a b = false -> bson_le b a = true.
Proof.
  destruct a, b; simpl; try discriminate; intros H; try reflexivity;
    try (apply Nat.leb_le; apply Nat.leb_gt in H; lia);
    try (apply Z.leb_le; apply Z.leb_gt in H; lia).
Qed.

Lemma bson_le_trans (a b c : value) :
  bson_le a b = true -> bson_le b c = true -> bson_le a c = true.
Proof.
  destruct a, b; simpl; try discriminate; destruct c; simpl;
    try discriminate; try reflexivity; intros H1 H2;
    try (apply Nat.leb_le; apply Nat.leb_le in H1; apply Nat.leb_le in H2; lia);
    try (apply Z.leb_le; apply Z.leb_le in H1; apply Z.leb_le in H2; lia).
Qed.

Lemma in_order_total (a b : dict) : created_le a b = false -> in_order b a.
Proof. apply bson_le_total. Qed.

Lemma in_order_trans (a b c : dict) : in_order a b -> in_order b c -> in_order a c.
Proof. apply bson_le_trans. Qed.

Lemma insert_sorted_In (x y : dict) (l : list dict) :
  In y (insert_sorted x l) <-> y = x \/ In y l.
Proof.
  induction l as [|h t IH]; simpl.
  - intuition.
  - destruct (created_le x h); simpl; [intuition|].
    rewrite IH. intuition.
Qed.

Lemma insert_sorted_HdRel (a x : dict) (l : list dict) :
  in_order a x -> HdRel in_order a l -> HdRel in_order a (insert_sorted x l).
Proof.
  intros Hax Hl. destruct l as [|h t]; simpl.
  - now constructor.
  - inversion Hl; subst. destruct (created_le x h); now constructor.
Qed.

Lemma insert_sorted_Sorted (x : dict) (l : list dict) :
  Sorted in_order l -> Sorted in_order (insert_sorted x l).
Proof.
  induction l as [|h t IH]; simpl; intros Hs.
  - repeat constructor.
  - inversion Hs as [|? ? Hst Hhd]; subst.
    destruct (created_le x h) eqn:E.
    + constructor; [assumption | now constructor].
    + constructor; [auto|].
      apply insert_sorted_HdRel; [now apply in_order_total | assumption].
Qed.

Lemma sort_created_at_Sorted (l : list dict) :
  Sorted in_order (sort_created_at l).
Proof.
  induction l as [|h t IH]; simpl; [constructor|].
  now apply insert_sorted_Sorted.
Qed.

Lemma sort_created_at_In (y : dict) (l : list dict) :
  In y (sort_created_at l) <-> In y l.
Proof.
  induction l as [|h t IH]; simpl; [tauto|].
  rewrite insert_sorted_In, IH. intuition.
Qed.

Lemma sort_created_at_length (l : list dict) :
  length (sort_created_at l) = length l.
Proof.
  assert (Hins : forall x l', length (insert_sorted x l') = S (length l')).
  { intros x l'. induction l' as [|h t IH]; simpl; auto.
    destruct (created_le x h); simpl; auto. }
  induction l as [|h t IH]; simpl; auto. now rewrite Hins, IH.
Qed.

Lemma firstn_Sorted (n : nat) (l : list dict) :
  Sorted in_order l -> Sorted in_order (firstn n l).
Proof.
  revert l. induction n as [|n IH]; intros l Hs; simpl; [constructor|].
  destruct l as [|h t]; [constructor|].
  inversion Hs as [|? ? Hst Hhd]; subst.
  constructor; [auto|].
  destruct n; simpl; [constructor|].
  destruct t; [constructor|]. inversion Hhd; subst. now constructor.
Qed.

Lemma firstn_incl (n : nat) (l : list dict) (y : dict) :
  In y (firstn n l) -> In y l.
Proof.
  revert l. induction n as [|n IH]; intros l; simpl; [tauto|].
  destruct l as [|h t]; simpl; [tauto|]. intros [E|E]; auto.
Qed.

Lemma limit_Ok_inv (n : Z) (l l' : list dict) :
  limit n l = Ok l' -> l' = l \/ l' = firstn (Z.abs_nat n) l.
Proof.
  unfold limit. destruct (Z.eqb n 0).
  - intros H. injection H as <-. now left.
  - destruct (Z.leb (Z.abs n) int64_max); [|discriminate].
    intros H. injection H as <-. now right.
Qed.

Lemma limit_Sorted (n : Z) (l l' : list dict) :
  limit n l = Ok l' -> Sorted in_order l -> Sorted in_order l'.
Proof.
  intros H Hs. destruct (limit_Ok_inv n l l' H) as [->| ->];
    [assumption | now apply firstn_Sorted].
Qed.

Lemma limit_In (n : Z) (l l' : list dict) (y : dict) :
  limit n l = Ok l' -> In y l' -> In y l.
Proof.
  intros H. destruct (limit_Ok_inv n l l' H) as [->| ->];
    [auto | apply firstn_incl].
Qed.

Lemma limit_length (n : Z) (l l' : list dict) :
  (1 <= n)%Z -> limit n l = Ok l' -> (Z.of_nat (length l') <= n)%Z.
Proof.
  intros Hn. unfold limit.
  destruct (Z.eqb_spec n 0); [lia|].
  destruct (Z.leb (Z.abs n) int64_max); [|discriminate].
  intros H. injection H as <-.
  pose proof (firstn_le_length (Z.abs_nat n) l). lia.
Qed.

Lemma limit_in_range (n : Z) (l : list dict) :
  (0 <= n <= int64_max)%Z -> exists l', limit n l = Ok l'.
Proof.
  intros Hn. unfold limit. destruct (Z.eqb n 0); [eauto|].
  destruct (Z.leb_spec (Z.abs n) int64_max); [eauto | lia].
Qed.

Lemma limit_overflow (n : Z) (l : list dict) :
  (int64_max < n)%Z -> limit n l = Err OverflowError.
Proof.
  intros Hn. unfold limit.
  destruct (Z.eqb_spec n 0); [unfold int64_max in Hn; lia|].
  destruct (Z.leb_spec (Z.abs n) int64_max); [lia | reflexivity].
Qed.

Lemma list_messages_run (cid : value) (lim : Z) (db : database)
    (r : result (list dict)) :
  limit lim (sort_created_at
               (find [("channel_id", cid)] (collection "message" db))) = r ->
  list_messages cid lim (Some db) =
  (match r with
   | Ok docs => Ok (map (fun m => serialize_doc (Some m)) docs)
   | Err e => Err e
   end, Some db).
Proof.
  intros <-. unfold list_messages, bind, db_collection.
  now destruct (limit lim _).
Qed.

(** C2, as the code has it: for a limit from 0 to the largest 8-byte integer
    (50 when the limit is omitted) the messages returned for a channel are
    stored messages of that channel, in non-decreasing order of
    [created_at]; for a limit of at least 1 there are at most [limit] of
    them, and a limit of 0 caps nothing and returns them all.  A larger limit
    is not served: the request raises an OverflowError. *)
Theorem list_messages_filtered_sorted_capped :
  forall (db : database) (channel_id : string) (lim : option Z),
    (0 <= limit_of lim)%Z ->
    if Z.leb (limit_of lim) int64_max
    then
      exists docs : list dict,
        get_api_messages channel_id lim (Some db) =
          (Ok (map (fun m => serialize_doc (Some m)) docs), Some db) /\
        Forall (fun d => In d (collection "message" db) /\
                         dict_get "channel_id" d = Some (VStr channel_id)) docs /\
        Sorted in_order docs /\
        StronglySorted in_order docs /\
        if Z.eqb (limit_of lim) 0
        then docs = sort_created_at
                      (find [("channel_id", VStr channel_id)]
                            (collection "message" db))
        else (Z.of_nat (length docs) <= limit_of lim)%Z
    else
      get_api_messages channel_id lim (Some db) = (Err OverflowError, Some db).
Proof.
  intros db cid lim Hlim. unfold get_api_messages. fold (limit_of lim).
  set (all := sort_created_at
                (find [("channel_id", VStr cid)] (collection "message" db))).
  destruct (Z.leb_spec (limit_of lim) int64_max) as [Hmax|Hmax].
  - destruct (limit_in_range (limit_of lim) all) as [docs Hdocs]; [lia|].
    exists docs.
    assert (Hs : Sorted in_order docs).
    { apply (limit_Sorted _ _ _ Hdocs), sort_created_at_Sorted. }
    split.
    { now rewrite (list_messages_run _ _ _ _ Hdocs). }
    split.
    { apply Forall_forall. intros d Hd.
      apply (limit_In _ _ _ _ Hdocs) in Hd. unfold all in Hd.
      apply (proj1 (sort_created_at_In _ _)) in Hd.
      apply filter_In in Hd. destruct Hd as [Hin Hm].
      split; [assumption | now apply matches_str]. }
    split; [exact Hs|].
    split.
    { apply Sorted_StronglySorted; [|exact Hs].
      intros a b c. apply in_order_trans. }
    destruct (Z.eqb_spec (limit_of lim) 0) as [E|E].
    + unfold limit in Hdocs. rewrite E in Hdocs. cbn [Z.eqb] in Hdocs.
      now injection Hdocs.
    + apply (limit_length _ all); [lia | exact Hdocs].
  - now rewrite (list_messages_run _ _ _ _ (limit_overflow _ all Hmax)).
Qed.

Lemma list_messages_filtered_sorted_capped_witness :
  exists docs : list dict,
    get_api_messages "000000000000000000000001" (Some 2%Z) (Some seeded_db) =
      (Ok (map (fun m => serialize_doc (Some m)) docs), Some seeded_db) /\
    Forall (fun d => In d (collection "message" seeded_db) /\
                     dict_get "channel_id" d =
                     Some (VStr "000000000000000000000001")) docs /\
    Sorted in_order docs /\
    StronglySorted in_order docs /\
    (Z.of_nat (length docs) <= 2)%Z.
Proof.
  apply (list_messages_filtered_sorted_capped seeded_db
           "000000000000000000000001" (Some 2%Z)).
  simpl. lia.
Defined.

(** C2 as the spec words it fails at [limit = 0]: the seeded channel holds
    three messages and a request with limit 0 returns all three. *)
Lemma list_messages_limit_zero_returns_all :
  exists resp : list (option dict),
    get_api_messages "000000000000000000000001" (Some 0%Z) (Some seeded_db) =
      (Ok resp, Some seeded_db) /\
    length resp = 3 /\
    ~ (Z.of_nat (length resp) <= 0)%Z.
Proof.
  eexists. split; [vm_compute; reflexivity|].
  split; [reflexivity | simpl; lia].
Qed.

(** ** Seeding *)

(** C3: on the empty store the seed routine creates one server named
    VibeCord, its four channels and three messages in the first of them; a
    second call returns the same response and leaves the store as it is. *)
Theorem seed_twice_idempotent :
  exists (r : seed_response) (server first : dict) (rest : list (option dict)),
    seed_demo (Some empty_db) = (Ok r, Some seeded_db) /\
    seed_demo (Some seeded_db) = (Ok r, Some seeded_db) /\
    seed_server r = Some server /\
    seed_channels r = Some first :: rest /\
    dict_get "id" server = Some (VStr "000000000000000000000000") /\
    dict_get "id" first = Some (VStr "000000000000000000000001") /\
    map (dict_get "name") (collection "server" seeded_db) =
      [Some (VStr "VibeCord")] /\
    map (fun c => (dict_get "name" c, dict_get "server_id" c))
        (collection "channel" seeded_db) =
      [ (Some (VStr "general"), Some (VStr "000000000000000000000000"));
        (Some (VStr "announcements"), Some (VStr "000000000000000000000000"));
        (Some (VStr "design"), Some (VStr "000000000000000000000000"));
        (Some (VStr "dev-talk"), Some (VStr "000000000000000000000000")) ] /\
    map (dict_get "channel_id") (collection "message" seeded_db) =
      [ Some (VStr "000000000000000000000001");
        Some (VStr "000000000000000000000001");
        Some (VStr "000000000000000000000001") ] /\
    count_documents [("channel_id", VStr "000000000000000000000001")]
                    (collection "message" seeded_db) = 3 /\
    map fst (colls seeded_db) = ["server"; "channel"; "message"].
Proof.
  do 4 eexists.
  split; [vm_compute; reflexivity|].
  split; [vm_compute; reflexivity|].
  repeat split; vm_compute; reflexivity.
Qed.

(** ** The diagnostic route *)

Lemma prefix_length (n : nat) (s : string) :
  Diagnostic.char_length (Diagnostic.prefix n s) <= n.
Proof.
  revert n. induction s as [|c s IH]; intros n; simpl; [lia|].
  destruct (Diagnostic.is_continuation c) eqn:E; simpl; rewrite ?E.
  - apply IH.
  - destruct n as [|n]; simpl; [lia|]. rewrite E. specialize (IH n). lia.
Qed.

Lemma prefix_is_prefix (n : nat) (s : string) :
  exists rest : string, s = (Diagnostic.prefix n s ++ rest)%string.
Proof.
  revert n. induction s as [|c s IH]; intros n; simpl; [now exists EmptyString|].
  destruct (Diagnostic.is_continuation c).
  - destruct (IH n) as [rest Hrest]. exists rest. simpl. now rewrite <- Hrest.
  - destruct n as [|n]; [now eexists|].
    destruct (IH n) as [rest Hrest]. exists rest. simpl. now rewrite <- Hrest.
Qed.

(** C8, as the code has it: [GET /test] returns a response for every state
    of the store handle and of the environment; an exception raised while
    the store is probed does not leave the handler, it is reported in the
    [database] field as a fixed label followed by the first 50 characters of
    its message (all of it when it is shorter).  The bound of 50 characters
    is on the message, not on the field. *)
Theorem test_database_never_fails :
  forall (db : option Diagnostic.db_object) (env_url env_name : option string),
    exists r : Diagnostic.response,
      Diagnostic.test_database db env_url env_name = inr r /\
      match db with
      | None =>
          Diagnostic.database r = "⚠️  Available but not initialized"
      | Some h =>
          match Diagnostic.name_attr h, Diagnostic.list_collection_names h with
          | Diagnostic.AttrRaises msg, _ =>
              Diagnostic.database r =
                ("❌ Error: " ++ Diagnostic.prefix 50 msg)%string /\
              Diagnostic.char_length (Diagnostic.prefix 50 msg) <= 50 /\
              exists rest, msg = (Diagnostic.prefix 50 msg ++ rest)%string
          | _, inl msg =>
              Diagnostic.database r =
                ("⚠️  Connected but Error: " ++ Diagnostic.prefix 50 msg)%string /\
              Diagnostic.char_length (Diagnostic.prefix 50 msg) <= 50 /\
              exists rest, msg = (Diagnostic.prefix 50 msg ++ rest)%string
          | _, inr cs =>
              Diagnostic.database r = "✅ Connected & Working" /\
              Diagnostic.collections r = firstn 10 cs
          end
      end.
Proof.
  intros [[[|s|msg] [msg'|cs]]|] env_url env_name;
    (eexists; split; [vm_compute; reflexivity|]);
    try reflexivity; split; try reflexivity;
    (split; [apply prefix_length | apply prefix_is_prefix]).
Qed.

(** C8 as the spec words it fails: on an error of 60 characters the status
    field is the label and 50 characters of the message, 75 characters in
    all. *)
Lemma test_database_status_field_exceeds_50 :
  exists r : Diagnostic.response,
    Diagnostic.test_database
      (Some (Diagnostic.mkDb Diagnostic.AttrMissing
               (inl "123456789012345678901234567890123456789012345678901234567890")))
      None None = inr r /\
    Diagnostic.database r =
      "⚠️  Connected but Error: 12345678901234567890123456789012345678901234567890" /\
    Diagnostic.char_length (Diagnostic.database r) = 75 /\
    ~ Diagnostic.char_length (Diagnostic.database r) <= 50.
Proof.
  eexists. split; [vm_compute; reflexivity|].
  split; [reflexivity|]. split; [reflexivity|].
  vm_compute. intros H. repeat (apply le_S_n in H). inversion H.
Qed.

(** ** Identifiers in responses *)

Lemma last_binding_underscore_id (d : dict) : last_binding "_id" d = None.
Proof.
  induction d as [|[k v] t IH]; simpl; auto. rewrite IH.
  destruct (String.eqb_spec (rename k) "_id") as [E|E]; auto.
  now apply rename_not_id in E.
Qed.

Lemma last_binding_id_absent (d : dict) :
  dict_get "_id" d = None -> dict_get "id" d = None ->
  last_binding "id" d = None.
Proof.
  induction d as [|[k v] t IH]; simpl; auto.
  destruct (String.eqb_spec k "_id") as [|H1]; [discriminate|].
  destruct (String.eqb_spec k "id") as [|H2]; [discriminate|].
  intros Ha Hb. rewrite IH by assumption.
  unfold rename. destruct (String.eqb_spec k "_id"); [contradiction|].
  destruct (String.eqb_spec k "id"); [contradiction | reflexivity].
Qed.

Lemma stored_ok_exposes_id (d : dict) :
  stored_ok d -> exposes_id (serialize_doc (Some d)).
Proof.
  intros (o & rest & -> & Hid & Hid').
  exists (serialize_items (("_id", VOid o) :: rest) []), (ObjectId_str o).
  split; [reflexivity|]. split; [|split].
  - rewrite serialize_items_get. cbn [last_binding].
    rewrite last_binding_id_absent by assumption. reflexivity.
  - apply ObjectId_str_length.
  - rewrite serialize_items_get, last_binding_underscore_id. reflexivity.
Qed.

Lemma stored_is_ok (data : dict) (db : database) :
  dict_get "id" data = None -> stored_ok (stored data db).
Proof.
  intros H. exists (fresh_oid db). eexists. split; [reflexivity|]. split.
  - apply dict_get_del_same.
  - rewrite dict_get_del_other, dict_get_set_other by discriminate. exact H.
Qed.

Lemma store_inv_added (name : string) (data : dict) (db : database) :
  dict_get "id" data = None ->
  store_inv (Some db) -> store_inv (Some (added name (stored data db) db)).
Proof.
  intros Hid Hinv name'. simpl in Hinv.
  destruct (String.eqb_spec name name') as [<-|Hne].
  - rewrite collection_added_same. apply Forall_app. split; [apply Hinv|].
    constructor; [now apply stored_is_ok | constructor].
  - rewrite collection_added_other by assumption. apply Hinv.
Qed.

Lemma store_inv_empty : store_inv (Some empty_db).
Proof. intros name. constructor. Qed.

(** *** Rules for [triple] *)

Lemma triple_ret {A : Type} (a : A) (Q : A -> Prop) :
  Q a -> triple (ret a) Q.
Proof.
  intros H w Hw. split; [exact Hw|]. simpl. intros a' E. now injection E as <-.
Qed.

Lemma triple_raise {A : Type} (e : error) (Q : A -> Prop) :
  triple (raise e) Q.
Proof. intros w Hw. split; [exact Hw|]. simpl. discriminate. Qed.

Lemma triple_bind {A B : Type} (m : M A) (k : A -> M B)
    (P : A -> Prop) (Q : B -> Prop) :
  triple m P -> (forall a, P a -> triple (k a) Q) -> triple (bind m k) Q.
Proof.
  intros Hm Hk w Hw. destruct (Hm w Hw) as [Hinv Hres].
  unfold bind. destruct (m w) as [[a|e] w']; simpl in *.
  - apply (Hk a); auto.
  - split; [assumption | discriminate].
Qed.

Lemma triple_weaken {A : Type} (m : M A) (P Q : A -> Prop) :
  triple m P -> (forall a, P a -> Q a) -> triple m Q.
Proof.
  intros Hm HPQ w Hw. destruct (Hm w Hw) as [Hinv Hres]. split; auto.
Qed.

Lemma triple_for_each {A : Type} (l : list A) (body : A -> M unit) :
  (forall x, triple (body x) (fun _ => True)) ->
  triple (for_each l body) (fun _ => True).
Proof.
  intros Hb. induction l as [|x t IH]; simpl.
  - now apply triple_ret.
  - eapply triple_bind; [apply Hb | intros; apply IH].
Qed.

Lemma triple_validated {A B : Type} (r : result A) (k : A -> M B)
    (Q : B -> Prop) :
  (forall a, triple (k a) Q) -> triple (validated r k) Q.
Proof.
  intros H. destruct r; simpl; [apply H | apply triple_raise].
Qed.

Lemma triple_fmap {A B : Type} (f : A -> B) (m : M A)
    (P : A -> Prop) (Q : B -> Prop) :
  triple m P -> (forall a, P a -> Q (f a)) -> triple (fmap f m) Q.
Proof.
  intros Hm H. unfold fmap. eapply triple_bind; [exact Hm|].
  intros a Ha. apply triple_ret. auto.
Qed.

(** *** The primitives *)

Lemma triple_db_collection (name : string) :
  triple (db_collection name) (Forall stored_ok).
Proof.
  intros [db|] Hw; simpl; (split; [exact Hw|]); [|discriminate].
  intros a E. injection E as <-. apply Hw.
Qed.

Lemma Forall_find (P : dict -> Prop) (flt : dict) (docs : list dict) :
  Forall P docs -> Forall P (find flt docs).
Proof.
  intros H. apply Forall_forall. intros d Hd. apply filter_In in Hd.
  rewrite Forall_forall in H. now apply H.
Qed.

Lemma triple_get_documents (name : string) (flt : dict) :
  triple (get_documents name flt) (Forall stored_ok).
Proof.
  intros [db|] Hw; simpl; (split; [exact Hw|]); [|discriminate].
  intros a E. injection E as <-. apply Forall_find, Hw.
Qed.

Lemma triple_subscript (doc : option dict) (key : string) :
  triple (subscript doc key) (fun _ => True).
Proof.
  unfold subscript. destruct doc as [d|]; [|apply triple_raise].
  destruct (dict_get key d); [now apply triple_ret | apply triple_raise].
Qed.

Lemma serialized_list_exposes_id (docs : list dict) :
  Forall stored_ok docs ->
  Forall exposes_id (map (fun d => serialize_doc (Some d)) docs).
Proof.
  intros H. apply Forall_map. eapply Forall_impl; [|exact H].
  intros d. apply stored_ok_exposes_id.
Qed.

(** A creating handler: the invariant is kept and the document read back is
    a stored one. *)
Lemma triple_create (name : string) (data : dict) (m : M (option dict)) :
  dict_get "id" data = None ->
  (forall db,
      m (Some db) =
      (Ok (serialize_doc
             (find_one [("_id", VOid (fresh_oid db))]
                       (collection name db ++ [stored data db]))),
       Some (added name (stored data db) db))) ->
  (forall w, w = None -> exists e, m w = (Err e, None)) ->
  triple m exposes_id.
Proof.
  intros Hid Hrun Hnone [db|] Hw.
  - rewrite Hrun; simpl. split; [now apply store_inv_added|].
    intros a E. injection E as <-.
    destruct (find_one_last_some [("_id", VOid (fresh_oid db))]
                (collection name db) (stored data db)) as [d Hd].
    { now apply matches_id. }
    rewrite Hd. apply stored_ok_exposes_id.
    apply find_one_In in Hd. destruct Hd as [Hin _].
    apply in_app_or in Hin. destruct Hin as [Hin|[<-|[]]].
    + pose proof (Hw name) as Hall. rewrite Forall_forall in Hall. now apply Hall.
    + now apply stored_is_ok.
  - destruct (Hnone None eq_refl) as [e ->]. simpl. split; [exact I | discriminate].
Qed.

Lemma triple_create_server (p : ServerIn.t) :
  triple (create_server p) exposes_id.
Proof.
  apply (triple_create "server" (ServerIn.model_dump p)).
  - reflexivity.
  - intros db. apply create_server_run.
  - intros w ->. now eexists.
Qed.

Lemma triple_create_channel (sid : value) (p : ChannelIn.t) :
  triple (create_channel sid p) exposes_id.
Proof.
  apply (triple_create "channel"
           (dict_set "server_id" sid (ChannelIn.model_dump p))).
  - reflexivity.
  - intros db. apply create_channel_run.
  - intros w ->. now eexists.
Qed.

Lemma triple_send_message (cid : value) (p : MessageIn.t) :
  triple (send_message cid p) exposes_id.
Proof.
  apply (triple_create "message"
           (dict_set "channel_id" cid (MessageIn.model_dump p))).
  - reflexivity.
  - intros db. apply send_message_run.
  - intros w ->. now eexists.
Qed.

(** *** The handlers *)

Lemma triple_list_servers :
  triple list_servers (Forall exposes_id).
Proof.
  unfold list_servers. eapply triple_bind; [apply triple_get_documents|].
  intros docs Hdocs. apply triple_ret. now apply serialized_list_exposes_id.
Qed.

Lemma triple_list_channels (sid : value) :
  triple (list_channels sid) (Forall exposes_id).
Proof.
  unfold list_channels. eapply triple_bind; [apply triple_get_documents|].
  intros docs Hdocs. apply triple_ret. now apply serialized_list_exposes_id.
Qed.

Lemma Forall_limit (P : dict -> Prop) (n : Z) (l l' : list dict) :
  limit n l = Ok l' -> Forall P l -> Forall P l'.
Proof.
  intros Hl H. apply Forall_forall. intros d Hd.
  apply (limit_In _ _ _ _ Hl) in Hd.
  rewrite Forall_forall in H. now apply H.
Qed.

Lemma triple_lift {A : Type} (r : result A) (Q : A -> Prop) :
  (forall a, r = Ok a -> Q a) -> triple (lift r) Q.
Proof.
  intros H. destruct r as [a|e]; simpl.
  - apply triple_ret. now apply H.
  - apply triple_raise.
Qed.

Lemma Forall_sort_created_at (P : dict -> Prop) (l : list dict) :
  Forall P l -> Forall P (sort_created_at l).
Proof.
  intros H. apply Forall_forall. intros d Hd.
  apply (proj1 (sort_created_at_In _ _)) in Hd.
  rewrite Forall_forall in H. now apply H.
Qed.

Lemma triple_list_messages (cid : value) (lim : Z) :
  triple (list_messages cid lim) (Forall exposes_id).
Proof.
  unfold list_messages. eapply triple_bind; [apply triple_db_collection|].
  intros docs Hdocs.
  apply triple_bind with (P := Forall stored_ok).
  - apply triple_lift. intros cursor Hcursor.
    apply (Forall_limit _ _ _ _ Hcursor).
    now apply Forall_sort_created_at, Forall_find.
  - intros cursor Hcursor. apply triple_ret.
    now apply serialized_list_exposes_id.
Qed.

Lemma truthy_find_one_stored (flt : dict) (docs : list dict) :
  Forall stored_ok docs ->
  truthy (find_one flt docs) = true ->
  exposes_id (serialize_doc (find_one flt docs)).
Proof.
  intros Hall Ht. destruct (find_one flt docs) as [d|] eqn:E; [|discriminate].
  apply stored_ok_exposes_id. apply find_one_In in E. destruct E as [Hin _].
  rewrite Forall_forall in Hall. now apply Hall.
Qed.

Lemma triple_seed_demo :
  triple seed_demo
         (fun r => Forall exposes_id (seed_server r :: seed_channels r)).
Proof.
  unfold seed_demo.
  eapply triple_bind; [apply triple_db_collection|]. intros servers Hservers.
  apply triple_bind with (P := exposes_id).
  { destruct (truthy (find_one [] servers)) eqn:Ht.
    - apply triple_ret. now apply truthy_find_one_stored.
    - apply triple_create_server. }
  intros server Hserver.
  eapply triple_bind; [apply triple_subscript|]. intros server_id _.
  eapply triple_bind; [apply triple_db_collection|]. intros chans _.
  apply triple_bind with (P := fun _ => True).
  { destruct (Nat.eqb (count_documents [("server_id", server_id)] chans) 0).
    - apply triple_for_each. intros name.
      eapply triple_bind; [apply triple_create_channel|].
      intros; now apply triple_ret.
    - now apply triple_ret. }
  intros _ _.
  eapply triple_bind; [apply triple_list_channels|]. intros channels Hchannels.
  apply triple_bind with (P := fun _ => True).
  { destruct channels as [|first_channel rest]; [now apply triple_ret|].
    eapply triple_bind; [apply triple_subscript|]. intros cid _.
    eapply triple_bind; [apply triple_db_collection|]. intros msgs _.
    destruct (Nat.eqb (count_documents [("channel_id", cid)] msgs) 0).
    - apply triple_for_each. intros text.
      eapply triple_bind; [apply triple_send_message|].
      intros; now apply triple_ret.
    - now apply triple_ret. }
  intros _ _. apply triple_ret. simpl. now constructor.
Qed.

Lemma triple_handle (rq : request) :
  triple (handle rq) (fun resp => Forall exposes_id (response_docs resp)).
Proof.
  destruct rq; simpl.
  - eapply triple_fmap; [apply triple_list_servers | auto].
  - eapply triple_fmap.
    + apply triple_validated. intros p. apply triple_create_server.
    + intros a Ha. simpl. now constructor.
  - eapply triple_fmap; [apply triple_list_channels | auto].
  - eapply triple_fmap.
    + apply triple_validated. intros p. apply triple_create_channel.
    + intros a Ha. simpl. now constructor.
  - eapply triple_fmap; [apply triple_list_messages | auto].
  - eapply triple_fmap.
    + apply triple_validated. intros p. apply triple_send_message.
    + intros a Ha. simpl. now constructor.
  - eapply triple_fmap; [apply triple_seed_demo | auto].
Qed.

Lemma reachable_store_inv (w : world) : reachable w -> store_inv w.
Proof.
  induction 1 as [| |w rq Hr IH].
  - apply store_inv_empty.
  - exact I.
  - now apply (triple_handle rq w).
Qed.

(** ** What the seed routine creates *)

Lemma bind_Ok {A B : Type} (m : M A) (k : A -> M B) (w w' : world) (b : B) :
  bind m k w = (Ok b, w') ->
  exists a w1, m w = (Ok a, w1) /\ k a w1 = (Ok b, w').
Proof.
  unfold bind. destruct (m w) as [[a|e] w1]; [eauto | discriminate].
Qed.

Lemma db_collection_Ok (name : string) (w w' : world) (docs : list dict) :
  db_collection name w = (Ok docs, w') ->
  w' = w /\ exists db, w = Some db /\ docs = collection name db.
Proof.
  destruct w as [db|]; simpl; intros H; [|discriminate].
  injection H as <- <-. eauto.
Qed.

Lemma subscript_Ok (doc : option dict) (key : string) (w w' : world) (v : value) :
  subscript doc key w = (Ok v, w') ->
  w' = w /\ exists d, doc = Some d /\ dict_get key d = Some v.
Proof.
  unfold subscript. destruct doc as [d|]; [|discriminate].
  destruct (dict_get key d) as [v'|] eqn:E; [|discriminate].
  simpl. intros H. injection H as <- <-. eauto.
Qed.

Lemma list_channels_Ok (sid : value) (w w' : world) (l : list (option dict)) :
  list_channels sid w = (Ok l, w') -> w' = w.
Proof.
  destruct w as [db|]; simpl; intros H; [|discriminate]. now injection H.
Qed.

Lemma seed_channels_loop (sid : value) (names : list string) :
  forall db : database,
  exists (db' : database) (new : list dict),
    for_each names (seed_channel sid) (Some db) = (Ok tt, Some db') /\
    collection "channel" db' = collection "channel" db ++ new /\
    (forall name, name <> "channel" -> collection name db' = collection name db) /\
    Forall channel_defaults new /\
    map (dict_get "name") new = map (fun n => Some (VStr n)) names.
Proof.
  induction names as [|n t IH]; intros db.
  - exists db, []. rewrite app_nil_r. repeat split; auto.
  - cbn [for_each]. unfold bind at 1. unfold seed_channel at 1.
    unfold bind at 1. rewrite create_channel_run. cbn [ret].
    set (raw := stored _ db).
    destruct (IH (added "channel" raw db)) as (db' & new & Hrun & Hc & Ho & Hd & Hn).
    exists db', (raw :: new). rewrite Hrun. split; [reflexivity|].
    split.
    { rewrite Hc, collection_added_same, <- app_assoc. reflexivity. }
    split.
    { intros name Hne. rewrite Ho by assumption.
      apply collection_added_other. congruence. }
    split.
    { constructor; [|assumption]. split; reflexivity. }
    simpl. now rewrite Hn.
Qed.

Lemma seed_messages_loop (cid : value) (texts : list string) :
  forall db : database,
  exists (db' : database) (new : list dict),
    for_each texts (seed_message cid) (Some db) = (Ok tt, Some db') /\
    collection "message" db' = collection "message" db ++ new /\
    (forall name, name <> "message" -> collection name db' = collection name db) /\
    Forall (welcome_message cid) new /\
    map (dict_get "content") new = map (fun t => Some (VStr t)) texts.
Proof.
  induction texts as [|n t IH]; intros db.
  - exists db, []. rewrite app_nil_r. repeat split; auto.
  - cbn [for_each]. unfold bind at 1. unfold seed_message at 1.
    unfold bind at 1. rewrite send_message_run. cbn [ret].
    set (raw := stored _ db).
    destruct (IH (added "message" raw db)) as (db' & new & Hrun & Hc & Ho & Hd & Hn).
    exists db', (raw :: new). rewrite Hrun. split; [reflexivity|].
    split.
    { rewrite Hc, collection_added_same, <- app_assoc. reflexivity. }
    split.
    { intros name Hne. rewrite Ho by assumption.
      apply collection_added_other. congruence. }
    split.
    { constructor; [|assumption]. repeat split; reflexivity. }
    simpl. now rewrite Hn.
Qed.

Lemma seed_server_step (existing : option dict) (p : ServerIn.t)
    (db : database) (server : option dict) (w : world) :
  (if truthy existing then ret (serialize_doc existing) else create_server p)
    (Some db) = (Ok server, w) ->
  exists db', w = Some db' /\
    forall name, name <> "server" -> collection name db' = collection name db.
Proof.
  destruct (truthy existing).
  - simpl. intros H. injection H as _ <-. eauto.
  - rewrite create_server_run. intros H. injection H as _ <-.
    eexists. split; [reflexivity|]. intros name Hne.
    apply collection_added_other. congruence.
Qed.

(** C10: whatever the store holds, the channels that a successful run of the
    seed routine adds have type text and are not private, and the messages
    it adds are written by System (id seed), have no attachments and carry
    as [channel_id] the [id] of the first channel of the response. *)
Theorem seed_demo_created_documents :
  forall (db : database) (r : seed_response) (w' : world),
    seed_demo (Some db) = (Ok r, w') ->
    exists (db' : database) (new_channels new_messages : list dict),
      w' = Some db' /\
      collection "channel" db' = collection "channel" db ++ new_channels /\
      collection "message" db' = collection "message" db ++ new_messages /\
      Forall channel_defaults new_channels /\
      (new_channels = [] \/
       map (dict_get "name") new_channels =
       map (fun n => Some (VStr n)) seed_channel_names) /\
      (new_messages = [] \/
       exists (first : dict) (rest : list (option dict)) (cid : value),
         seed_channels r = Some first :: rest /\
         dict_get "id" first = Some cid /\
         Forall (welcome_message cid) new_messages /\
         map (dict_get "content") new_messages =
         map (fun t => Some (VStr t)) seed_texts).
Proof.
  intros db r w' H. unfold seed_demo in H.
  apply bind_Ok in H as (servers & w1 & H1 & H).
  apply db_collection_Ok in H1 as (-> & _ & _ & _).
  apply bind_Ok in H as (server & w2 & H2 & H).
  apply seed_server_step in H2 as (db2 & -> & Hdb2).
  apply bind_Ok in H as (server_id & w3 & H3 & H).
  apply subscript_Ok in H3 as (-> & _).
  apply bind_Ok in H as (chans & w4 & H4 & H).
  apply db_collection_Ok in H4 as (-> & _).
  apply bind_Ok in H as (u & w5 & H5 & H).
  assert (Hch : exists db5 new,
             w5 = Some db5 /\
             collection "channel" db5 = collection "channel" db2 ++ new /\
             collection "message" db5 = collection "message" db2 /\
             Forall channel_defaults new /\
             (new = [] \/
              map (dict_get "name") new =
              map (fun n => Some (VStr n)) seed_channel_names)).
  { destruct (Nat.eqb (count_documents [("server_id", server_id)] chans) 0).
    - change (for_each seed_channel_names (seed_channel server_id) (Some db2)
              = (Ok u, w5)) in H5.
      destruct (seed_channels_loop server_id seed_channel_names db2)
        as (db5 & new & Hrun & Hc & Ho & Hd & Hn).
      rewrite Hrun in H5. injection H5 as _ <-.
      exists db5, new. repeat split; auto. apply Ho. discriminate.
    - simpl in H5. injection H5 as _ <-.
      exists db2, []. rewrite app_nil_r. repeat split; auto. }
  destruct Hch as (db5 & new_ch & -> & Hc5 & Hm5 & Hdef & Hnames).
  apply bind_Ok in H as (channels & w6 & H6 & H).
  apply list_channels_Ok in H6 as ->.
  apply bind_Ok in H as (u' & w7 & H7 & H).
  simpl in H. injection H as <- <-.
  assert (Hmsg : exists db7 new,
             w7 = Some db7 /\
             collection "channel" db7 = collection "channel" db5 /\
             collection "message" db7 = collection "message" db5 ++ new /\
             (new = [] \/
              exists first rest cid,
                channels = Some first :: rest /\
                dict_get "id" first = Some cid /\
                Forall (welcome_message cid) new /\
                map (dict_get "content") new =
                map (fun t => Some (VStr t)) seed_texts)).
  { destruct channels as [|first_channel rest].
    - simpl in H7. injection H7 as _ <-.
      exists db5, []. rewrite app_nil_r. auto.
    - apply bind_Ok in H7 as (cid & w8 & H8 & H7).
      apply subscript_Ok in H8 as (-> & first & -> & Hcid).
      apply bind_Ok in H7 as (msgs & w9 & H9 & H7).
      apply db_collection_Ok in H9 as (-> & _).
      destruct (Nat.eqb (count_documents [("channel_id", cid)] msgs) 0).
      + change (for_each seed_texts (seed_message cid) (Some db5)
                = (Ok u', w7)) in H7.
        destruct (seed_messages_loop cid seed_texts db5)
          as (db7 & new & Hrun & Hc & Ho & Hd & Hn).
        rewrite Hrun in H7. injection H7 as _ <-.
        exists db7, new. split; [reflexivity|].
        split; [apply Ho; discriminate|]. split; [assumption|].
        right. exists first, rest, cid. auto.
      + simpl in H7. injection H7 as _ <-.
        exists db5, []. rewrite app_nil_r. auto. }
  destruct Hmsg as (db7 & new_msg & -> & Hc7 & Hm7 & Hmsgs).
  exists db7, new_ch, new_msg. split; [reflexivity|].
  split. { rewrite Hc7, Hc5, Hdb2 by discriminate. reflexivity. }
  split. { rewrite Hm7, Hm5, Hdb2 by discriminate. reflexivity. }
  split; [assumption|]. split; assumption.
Qed.

Lemma seed_demo_created_documents_witness :
  exists (db' : database) (new_channels new_messages : list dict),
    Some seeded_db = Some db' /\
    collection "channel" db' = collection "channel" empty_db ++ new_channels /\
    collection "message" db' = collection "message" empty_db ++ new_messages /\
    Forall channel_defaults new_channels /\
    (new_channels = [] \/
     map (dict_get "name") new_channels =
     map (fun n => Some (VStr n)) seed_channel_names) /\
    (new_messages = [] \/
     exists (first : dict) (rest : list (option dict)) (cid : value),
       seed_channels
         (mkSeed
            (serialize_doc (hd_error (collection "server" seeded_db)))
            (map (fun c => serialize_doc (Some c))
                 (collection "channel" seeded_db))) = Some first :: rest /\
       dict_get "id" first = Some cid /\
       Forall (welcome_message cid) new_messages /\
       map (dict_get "content") new_messages =
       map (fun t => Some (VStr t)) seed_texts).
Proof.
  apply (seed_demo_created_documents empty_db).
  vm_compute. reflexivity.
Defined.


(* ===================================================================== *)
(** * Further properties of the handlers *)
(* ===================================================================== *)

(** ** Serialization, field by field *)

Lemma rename_injective_on (d : dict) :
  dict_get "id" d = None \/ dict_get "_id" d = None ->
  ForallPairs (fun x y => rename x = rename y -> x = y) (dict_keys d).
Proof.
  intros H x y Hx Hy. unfold rename.
  destruct (String.eqb_spec x "_id") as [->|Hx'];
    destruct (String.eqb_spec y "_id") as [->|Hy']; auto; intros E; subst.
  - exfalso. destruct H as [H|H]; apply dict_get_None_notin in H; contradiction.
  - exfalso. destruct H as [H|H]; apply dict_get_None_notin in H; contradiction.
Qed.

Lemma serialize_items_map (d out : dict) :
  NoDup (dict_keys out ++ map rename (dict_keys d)) ->
  serialize_items d out = out ++ map serialize_field d.
Proof.
  revert out. induction d as [|[k v] t IH]; intros out Hnd.
  - simpl. now rewrite app_nil_r.
  - unfold serialize_items in *. cbn [fold_left map].
    rewrite serialize_item_rename.
    assert (Hfresh : dict_get (rename k) out = None).
    { apply dict_get_None_notin. intros Hin.
      simpl in Hnd. apply NoDup_remove_2 in Hnd. apply Hnd.
      apply in_or_app. now left. }
    rewrite dict_set_fresh by assumption.
    rewrite IH.
    + rewrite <- app_assoc. reflexivity.
    + unfold dict_keys in *. rewrite map_app, <- app_assoc. exact Hnd.
Qed.

(** X1: on a document that does not have both an [_id] and an [id] field,
    [serialize_doc] works field by field: the fields keep their order, [_id]
    is renamed to [id], and each value is passed through [serialize_id]. *)
Theorem serialize_doc_fieldwise :
  forall d : dict,
    NoDup (dict_keys d) ->
    dict_get "id" d = None \/ dict_get "_id" d = None ->
    serialize_doc (Some d) = Some (map serialize_field d).
Proof.
  intros d Hnd Hone. destruct d as [|kv t]; [reflexivity|].
  unfold serialize_doc. f_equal.
  apply (serialize_items_map (kv :: t) []).
  change (NoDup (map rename (dict_keys (kv :: t)))).
  apply NoDup_map_NoDup_ForallPairs; [|exact Hnd].
  now apply rename_injective_on.
Qed.

Lemma serialize_doc_fieldwise_witness :
  serialize_doc
    (Some [("_id", VOid (Oid 255)); ("name", VStr "general");
           ("owner", VOid (Oid 16))]) =
  Some [("id", VStr "0000000000000000000000ff"); ("name", VStr "general");
        ("owner", VStr "000000000000000000000010")].
Proof.
  apply (serialize_doc_fieldwise
           [("_id", VOid (Oid 255)); ("name", VStr "general");
            ("owner", VOid (Oid 16))]).
  - repeat constructor; simpl; intuition discriminate.
  - left. reflexivity.
Defined.

Lemma last_binding_app (k : string) (d1 d2 : dict) :
  last_binding k (d1 ++ d2) =
  match last_binding k d2 with
  | Some x => Some x
  | None => last_binding k d1
  end.
Proof.
  induction d1 as [|[k1 v1] t IH]; simpl.
  - now destruct (last_binding k d2).
  - rewrite IH. now destruct (last_binding k d2).
Qed.

Lemma last_binding_id_key (d : dict) (k : string) (v : value) :
  NoDup (dict_keys d) -> id_key k -> dict_get k d = Some v ->
  (forall k', id_key k' -> k' <> k -> dict_get k' d = None) ->
  last_binding "id" d = Some v.
Proof.
  intros Hnd Hk. induction d as [|[k0 v0] t IH]; simpl; [discriminate|].
  inversion Hnd as [|? ? Hnotin Hnd']; subst.
  intros Hget Hother.
  destruct (String.eqb_spec k0 k) as [->|Hne].
  - injection Hget as ->.
    assert (Hnone : last_binding "id" t = None).
    { apply dict_get_None_notin in Hnotin.
      apply last_binding_id_absent.
      - destruct (String.eqb_spec k "_id") as [->|E]; [assumption|].
        specialize (Hother "_id" (or_introl eq_refl) (not_eq_sym E)).
        simpl in Hother. destruct (String.eqb_spec k "_id"); [contradiction|].
        exact Hother.
      - destruct (String.eqb_spec k "id") as [->|E]; [assumption|].
        specialize (Hother "id" (or_intror eq_refl) (not_eq_sym E)).
        simpl in Hother. destruct (String.eqb_spec k "id"); [contradiction|].
        exact Hother. }
    rewrite Hnone. unfold rename.
    destruct Hk as [->| ->]; reflexivity.
  - rewrite IH; auto.
    intros k' Hk' Hne'. specialize (Hother k' Hk' Hne'). simpl in Hother.
    destruct (String.eqb k0 k'); [discriminate | assumption].
Qed.

Lemma NoDup_app_disjoint (l1 l2 : list string) (x : string) :
  NoDup (l1 ++ l2) -> In x l1 -> ~ In x l2.
Proof.
  induction l1 as [|h t IH]; simpl; [tauto|].
  intros Hnd [->|Hin] Hin2.
  - inversion Hnd; subst. apply H1. apply in_or_app. now right.
  - inversion Hnd; subst. now apply IH.
Qed.

(** X2: when a document has both an [_id] and an [id] field, the output has
    one [id] field and it holds the value of whichever of the two comes
    later in the document; an [id] field after [_id] thus replaces the
    identifier. *)
Theorem serialize_doc_id_clash :
  forall (d1 d2 : dict) (k1 k2 : string) (a b : value),
    NoDup (dict_keys (d1 ++ d2)) ->
    id_key k1 -> id_key k2 -> k1 <> k2 ->
    dict_get k1 d1 = Some a ->
    dict_get k2 d2 = Some b ->
    exists out : dict,
      serialize_doc (Some (d1 ++ d2)) = Some out /\
      dict_get "id" out = Some (serialize_id b) /\
      dict_get "_id" out = None.
Proof.
  intros d1 d2 k1 k2 a b Hnd Hk1 Hk2 Hne H1 H2.
  assert (Hin1 : In k1 (dict_keys d1)).
  { destruct (in_dec string_dec k1 (dict_keys d1)) as [|Hn]; auto.
    apply dict_get_None_notin in Hn. congruence. }
  assert (Hk1d2 : dict_get k1 d2 = None).
  { apply dict_get_None_notin. intros Hin2.
    unfold dict_keys in Hnd. rewrite map_app in Hnd.
    now apply (NoDup_app_disjoint _ _ k1 Hnd). }
  assert (Hnd2 : NoDup (dict_keys d2)).
  { unfold dict_keys in *. rewrite map_app in Hnd.
    now apply NoDup_app_remove_l in Hnd. }
  destruct (d1 ++ d2) as [|kv t] eqn:E.
  { destruct d1; [discriminate H1 | discriminate E]. }
  exists (serialize_items (kv :: t) []). split; [reflexivity|].
  rewrite <- E. split.
  - rewrite serialize_items_get, last_binding_app.
    rewrite (last_binding_id_key d2 k2 b); auto.
    intros k' Hk' Hne'.
      assert (k' = k1) as ->; [|assumption].
      destruct Hk1 as [->| ->], Hk2 as [->| ->], Hk' as [->| ->]; congruence.
  - now rewrite serialize_items_get, last_binding_underscore_id.
Qed.

Lemma serialize_doc_id_clash_witness :
  exists out : dict,
    serialize_doc
      (Some ([("_id", VOid (Oid 1))] ++ [("id", VStr "mine"); ("n", VInt 3)])) =
    Some out /\
    dict_get "id" out = Some (serialize_id (VStr "mine")) /\
    dict_get "_id" out = None.
Proof.
  apply (serialize_doc_id_clash
           [("_id", VOid (Oid 1))] [("id", VStr "mine"); ("n", VInt 3)]
           "_id" "id" (VOid (Oid 1)) (VStr "mine")).
  - repeat constructor; simpl; intuition discriminate.
  - left. reflexivity.
  - right. reflexivity.
  - discriminate.
  - reflexivity.
  - reflexivity.
Defined.

(** ** Creating, then listing *)

Lemma find_all (docs : list dict) : find [] docs = docs.
Proof.
  unfold find. induction docs as [|d t IH]; simpl; auto. now rewrite IH.
Qed.

Lemma find_snoc (flt : dict) (docs : list dict) (doc : dict) :
  find flt (docs ++ [doc]) =
  find flt docs ++ (if matches flt doc then [doc] else []).
Proof. unfold find. rewrite filter_app. reflexivity. Qed.

Lemma serialize_stored (data : dict) (db : database) :
  serialize_doc (Some (stored data db)) =
  Some (serialize_items (stored data db) []).
Proof. reflexivity. Qed.

(** X3: a server that was just created is in the server list afterwards,
    once, next to the servers listed before: the new list is the old one
    with the returned document added, whatever the order of the scan. *)
Theorem create_server_then_list :
  forall (db : database) (p : ServerIn.t),
    fresh_id "server" db ->
    exists (doc : dict) (before after : list (option dict)),
      fst (create_server p (Some db)) = Ok (Some doc) /\
      fst (list_servers (Some db)) = Ok before /\
      fst (list_servers (snd (create_server p (Some db)))) = Ok after /\
      Permutation after (Some doc :: before).
Proof.
  intros db p Hfresh.
  rewrite create_server_run, read_back_fresh by assumption.
  rewrite serialize_stored. eexists. eexists. eexists.
  split; [reflexivity|]. split; [reflexivity|].
  cbn [snd fst list_servers bind get_documents ret].
  rewrite !find_all, collection_added_same, map_app.
  split; [reflexivity|].
  symmetry. apply Permutation_cons_append.
Qed.

Lemma create_server_then_list_witness :
  exists (doc : dict) (before after : list (option dict)),
    fst (create_server (ServerIn.Build "Test" None None None) (Some seeded_db)) =
      Ok (Some doc) /\
    fst (list_servers (Some seeded_db)) = Ok before /\
    fst (list_servers
           (snd (create_server (ServerIn.Build "Test" None None None)
                   (Some seeded_db)))) = Ok after /\
    Permutation after (Some doc :: before).
Proof.
  apply (create_server_then_list seeded_db).
  vm_compute. repeat constructor; discriminate.
Defined.

(** X4: a channel that was just created under a server is in the channel
    list of that server afterwards, once, next to the channels listed
    before, and the channel list of every other server holds the same
    channels as before; neither statement depends on the order of the
    scan. *)
Theorem create_channel_then_list :
  forall (db : database) (server_id other : string) (p : ChannelIn.t),
    fresh_id "channel" db ->
    exists (doc : dict) (before after : list (option dict)),
      fst (create_channel (VStr server_id) p (Some db)) = Ok (Some doc) /\
      fst (list_channels (VStr other) (Some db)) = Ok before /\
      fst (list_channels (VStr other)
             (snd (create_channel (VStr server_id) p (Some db)))) = Ok after /\
      Permutation after
        (if String.eqb server_id other then Some doc :: before else before).
Proof.
  intros db sid other p Hfresh.
  rewrite create_channel_run, read_back_fresh by assumption.
  rewrite serialize_stored. eexists. eexists. eexists.
  split; [reflexivity|]. split; [reflexivity|].
  cbn [snd fst list_channels bind get_documents ret].
  rewrite collection_added_same, find_snoc, map_app.
  split; [reflexivity|].
  replace (matches [("server_id", VStr other)]
             (stored (dict_set "server_id" (VStr sid) (ChannelIn.model_dump p)) db))
    with (String.eqb sid other).
  - destruct (String.eqb sid other).
    + symmetry. apply Permutation_cons_append.
    + simpl. now rewrite app_nil_r.
  - unfold matches, stored, ChannelIn.model_dump. cbn.
    now rewrite andb_true_r.
Qed.

Lemma create_channel_then_list_witness :
  exists (doc : dict) (before after : list (option dict)),
    fst (create_channel (VStr "000000000000000000000000")
           (ChannelIn.Build "random" "voice" None true) (Some seeded_db)) =
      Ok (Some doc) /\
    fst (list_channels (VStr "000000000000000000000000") (Some seeded_db)) =
      Ok before /\
    fst (list_channels (VStr "000000000000000000000000")
           (snd (create_channel (VStr "000000000000000000000000")
                   (ChannelIn.Build "random" "voice" None true)
                   (Some seeded_db)))) = Ok after /\
    Permutation after (Some doc :: before).
Proof.
  apply (create_channel_then_list seeded_db "000000000000000000000000"
           "000000000000000000000000").
  vm_compute. repeat constructor; discriminate.
Defined.

(** X5: the [id] that channel creation returns is a valid ObjectId string,
    and the channel lookup of [send_message] resolves it to the channel that
    was created. *)
Theorem created_channel_is_found :
  forall (db : database) (server_id : value) (p : ChannelIn.t),
    fresh_id "channel" db ->
    exists (doc raw : dict) (id : string) (db' : database),
      create_channel server_id p (Some db) = (Ok (Some doc), Some db') /\
      dict_get "id" doc = Some (VStr id) /\
      ObjectId_is_valid id = true /\
      lookup_channel (VStr id) (collection "channel" db') = Some raw /\
      serialize_doc (Some raw) = Some doc.
Proof.
  intros db sid p Hfresh.
  pose (raw := stored (dict_set "server_id" sid (ChannelIn.model_dump p)) db).
  assert (Hok : stored_ok raw) by (apply stored_is_ok; reflexivity).
  destruct (stored_ok_exposes_id raw Hok) as (doc & id & Hser & Hid & _ & _).
  exists doc, raw, (ObjectId_str (fresh_oid db)), (added "channel" raw db).
  split.
  { rewrite create_channel_run, read_back_fresh by assumption.
    fold raw. now rewrite Hser. }
  assert (Hdoc : doc = serialize_items raw []).
  { unfold raw in Hser. rewrite serialize_stored in Hser. now injection Hser. }
  split.
  { rewrite Hdoc, serialize_items_get. unfold raw, stored. cbn [last_binding].
    rewrite last_binding_id_absent.
    - reflexivity.
    - apply dict_get_del_same.
    - reflexivity. }
  split; [apply (ObjectId_parse_valid _ _ (ObjectId_parse_fresh db))|].
  split; [|exact Hser].
  unfold lookup_channel, ObjectId_of_value, ObjectId_is_valid_value.
  rewrite (ObjectId_parse_valid _ _ (ObjectId_parse_fresh db)).
  rewrite ObjectId_parse_fresh, collection_added_same. cbn [find_by_oid].
  now apply read_back_fresh.
Qed.

Lemma created_channel_is_found_witness :
  exists (doc raw : dict) (id : string) (db' : database),
    create_channel (VStr "000000000000000000000000")
      (ChannelIn.Build "random" "voice" None true) (Some seeded_db) =
      (Ok (Some doc), Some db') /\
    dict_get "id" doc = Some (VStr id) /\
    ObjectId_is_valid id = true /\
    lookup_channel (VStr id) (collection "channel" db') = Some raw /\
    serialize_doc (Some raw) = Some doc.
Proof.
  apply (created_channel_is_found seeded_db).
  vm_compute. repeat constructor; discriminate.
Defined.

(** ** Listing all the messages of a channel *)

Lemma insert_sorted_Permutation (x : dict) (l : list dict) :
  Permutation (insert_sorted x l) (x :: l).
Proof.
  induction l as [|h t IH]; simpl; auto.
  destruct (created_le x h); auto.
  rewrite IH. apply perm_swap.
Qed.

Lemma sort_created_at_Permutation (l : list dict) :
  Permutation (sort_created_at l) l.
Proof.
  induction l as [|h t IH]; simpl; auto.
  rewrite insert_sorted_Permutation. now constructor.
Qed.

Lemma limit_all (n : Z) (l : list dict) :
  n = 0%Z \/ (Z.of_nat (length l) <= n <= int64_max)%Z -> limit n l = Ok l.
Proof.
  intros H. unfold limit. destruct (Z.eqb_spec n 0); [reflexivity|].
  destruct H as [H|H]; [contradiction|].
  destruct (Z.leb_spec (Z.abs n) int64_max); [|lia].
  f_equal. apply firstn_all2. lia.
Qed.

(** X6: with a limit of 0, or a limit that is at least the number of
    messages of the channel and fits 8 bytes, the listing holds every stored
    message of the channel exactly once: nothing is dropped and nothing is
    repeated. *)
Theorem list_messages_complete :
  forall (db : database) (channel_id : string) (lim : Z),
    lim = 0%Z \/
    (Z.of_nat (count_documents [("channel_id", VStr channel_id)]
                               (collection "message" db)) <= lim <= int64_max)%Z ->
    exists docs : list dict,
      list_messages (VStr channel_id) lim (Some db) =
        (Ok (map (fun m => serialize_doc (Some m)) docs), Some db) /\
      Permutation docs
        (find [("channel_id", VStr channel_id)] (collection "message" db)).
Proof.
  intros db cid lim Hlim.
  set (all := sort_created_at
                (find [("channel_id", VStr cid)] (collection "message" db))).
  exists all. split.
  - rewrite (list_messages_run _ _ _ (Ok all)); [reflexivity|].
    apply limit_all. unfold all. rewrite sort_created_at_length. exact Hlim.
  - apply sort_created_at_Permutation.
Qed.

Lemma list_messages_complete_witness :
  exists docs : list dict,
    list_messages (VStr "000000000000000000000001") 3 (Some seeded_db) =
      (Ok (map (fun m => serialize_doc (Some m)) docs), Some seeded_db) /\
    Permutation docs
      (find [("channel_id", VStr "000000000000000000000001")]
            (collection "message" seeded_db)).
Proof.
  apply (list_messages_complete seeded_db "000000000000000000000001" 3).
  right. split; vm_compute; discriminate.
Defined.

(** X7: a message that was just sent to a channel is in the uncapped listing
    of that channel, which grows by one, and the listing of every other
    channel is as before. *)
Theorem send_message_then_list :
  forall (db : database) (channel_id other : string) (p : MessageIn.t),
    fresh_id "message" db ->
    exists (doc : dict) (before after : list (option dict)),
      fst (send_message (VStr channel_id) p (Some db)) = Ok (Some doc) /\
      fst (list_messages (VStr other) 0 (Some db)) = Ok before /\
      fst (list_messages (VStr other) 0
             (snd (send_message (VStr channel_id) p (Some db)))) = Ok after /\
      if String.eqb channel_id other
      then In (Some doc) after /\ length after = S (length before)
      else after = before.
Proof.
  intros db cid other p Hfresh.
  rewrite send_message_run, read_back_fresh by assumption.
  rewrite serialize_stored. eexists. eexists. eexists.
  split; [reflexivity|].
  split; [rewrite (list_messages_run (VStr other) 0 db (Ok _) eq_refl);
          reflexivity|].
  cbn [snd].
  rewrite (list_messages_run (VStr other) 0 _ (Ok _) eq_refl). cbn [fst].
  rewrite collection_added_same, find_snoc.
  split; [reflexivity|].
  set (raw := stored (dict_set "channel_id" (VStr cid) (MessageIn.model_dump p)) db).
  assert (Hm : matches [("channel_id", VStr other)] raw = String.eqb cid other).
  { unfold matches, raw, stored, MessageIn.model_dump. cbn.
    now rewrite andb_true_r. }
  rewrite Hm.
  destruct (String.eqb cid other).
  - split.
    + apply in_map_iff. exists raw. split; [reflexivity|].
      apply sort_created_at_In. apply in_or_app. right. now left.
    + rewrite !length_map, !sort_created_at_length, length_app. simpl. lia.
  - now rewrite app_nil_r.
Qed.

Lemma send_message_then_list_witness :
  exists (doc : dict) (before after : list (option dict)),
    fst (send_message (VStr "000000000000000000000001")
           (MessageIn.Build "u1" "Ann" "hello" []) (Some seeded_db)) =
      Ok (Some doc) /\
    fst (list_messages (VStr "000000000000000000000001") 0 (Some seeded_db)) =
      Ok before /\
    fst (list_messages (VStr "000000000000000000000001") 0
           (snd (send_message (VStr "000000000000000000000001")
                   (MessageIn.Build "u1" "Ann" "hello" []) (Some seeded_db)))) =
      Ok after /\
    In (Some doc) after /\ length after = S (length before).
Proof.
  apply (send_message_then_list seeded_db "000000000000000000000001"
           "000000000000000000000001").
  vm_compute. repeat constructor; discriminate.
Defined.

(** ** What every request keeps *)

Lemma ChannelIn_validate_type_ok (body : dict) (p : ChannelIn.t) :
  ChannelIn.validate body = Ok p -> ChannelIn.type_ok (ChannelIn.type p) = true.
Proof.
  unfold ChannelIn.validate.
  destruct (field_str "name" body); [|discriminate].
  destruct (dict_get "type" body) as [[]|]; try discriminate.
  - destruct (ChannelIn.type_ok s) eqn:E; [|discriminate].
    destruct (field_opt_str "topic" body); [|discriminate].
    destruct (field_bool "is_private" body); [|discriminate].
    intros H; injection H as <-; exact E.
  - destruct (field_opt_str "topic" body); [|discriminate].
    destruct (field_bool "is_private" body); [|discriminate].
    intros H; injection H as <-; reflexivity.
Qed.

Section Preservation.

Variable I : world -> Prop.

Hypothesis I_server :
  forall (p : ServerIn.t) (db : database),
    I (Some db) ->
    I (Some (added "server" (stored (ServerIn.model_dump p) db) db)).

Hypothesis I_channel :
  forall (sid : value) (p : ChannelIn.t) (db : database),
    ChannelIn.type_ok (ChannelIn.type p) = true ->
    I (Some db) ->
    I (Some (added "channel"
               (stored (dict_set "server_id" sid (ChannelIn.model_dump p)) db) db)).

Hypothesis I_message :
  forall (cid : value) (p : MessageIn.t) (db : database),
    I (Some db) ->
    I (Some (added "message"
               (stored (dict_set "channel_id" cid (MessageIn.model_dump p)) db) db)).

Lemma preserves_ret {A : Type} (a : A) : preserves I (ret a).
Proof. intros w Hw. exact Hw. Qed.

Lemma preserves_raise {A : Type} (e : error) : preserves I (@raise A e).
Proof. intros w Hw. exact Hw. Qed.

Lemma preserves_bind {A B : Type} (m : M A) (k : A -> M B) :
  preserves I m -> (forall a, preserves I (k a)) -> preserves I (bind m k).
Proof.
  intros Hm Hk w Hw. specialize (Hm w Hw). unfold bind.
  destruct (m w) as [[a|e] w']; simpl in *; [now apply Hk | assumption].
Qed.

Lemma preserves_for_each {A : Type} (l : list A) (body : A -> M unit) :
  (forall x, preserves I (body x)) -> preserves I (for_each l body).
Proof.
  intros Hb. induction l as [|x t IH]; simpl.
  - apply preserves_ret.
  - apply preserves_bind; [apply Hb | intros; apply IH].
Qed.

Lemma preserves_reader {A : Type} (m : M A) :
  (forall w, snd (m w) = w) -> preserves I m.
Proof. intros H w Hw. now rewrite H. Qed.

Lemma preserves_db_collection (name : string) : preserves I (db_collection name).
Proof. apply preserves_reader. now intros [db|]. Qed.

Lemma preserves_get_documents (name : string) (flt : dict) :
  preserves I (get_documents name flt).
Proof. apply preserves_reader. now intros [db|]. Qed.

Lemma preserves_subscript (doc : option dict) (key : string) :
  preserves I (subscript doc key).
Proof.
  apply preserves_reader. intros w. unfold subscript.
  destruct doc as [d|]; [|reflexivity]. now destruct (dict_get key d).
Qed.

Lemma preserves_create_server (p : ServerIn.t) : preserves I (create_server p).
Proof.
  intros [db|] Hw; [|exact Hw]. rewrite create_server_run. now apply I_server.
Qed.

Lemma preserves_create_channel (sid : value) (p : ChannelIn.t) :
  ChannelIn.type_ok (ChannelIn.type p) = true ->
  preserves I (create_channel sid p).
Proof.
  intros Hp [db|] Hw; [|exact Hw]. rewrite create_channel_run. now apply I_channel.
Qed.

Lemma preserves_send_message (cid : value) (p : MessageIn.t) :
  preserves I (send_message cid p).
Proof.
  intros [db|] Hw; [|exact Hw]. rewrite send_message_run. now apply I_message.
Qed.

Lemma preserves_list_channels (sid : value) : preserves I (list_channels sid).
Proof.
  unfold list_channels. apply preserves_bind.
  - apply preserves_get_documents.
  - intros; apply preserves_ret.
Qed.

Lemma preserves_seed_demo : preserves I seed_demo.
Proof.
  unfold seed_demo.
  apply preserves_bind; [apply preserves_db_collection|]. intros servers.
  apply preserves_bind.
  { destruct (truthy (find_one [] servers));
      [apply preserves_ret | apply preserves_create_server]. }
  intros server.
  apply preserves_bind; [apply preserves_subscript|]. intros server_id.
  apply preserves_bind; [apply preserves_db_collection|]. intros chans.
  apply preserves_bind.
  { destruct (Nat.eqb (count_documents [("server_id", server_id)] chans) 0);
      [|apply preserves_ret].
    apply preserves_for_each. intros name.
    apply preserves_bind; [now apply preserves_create_channel|].
    intros; apply preserves_ret. }
  intros _.
  apply preserves_bind; [apply preserves_list_channels|]. intros channels.
  apply preserves_bind; [|intros; apply preserves_ret].
  destruct channels as [|first_channel rest]; [apply preserves_ret|].
  apply preserves_bind; [apply preserves_subscript|]. intros cid.
  apply preserves_bind; [apply preserves_db_collection|]. intros msgs.
  destruct (Nat.eqb (count_documents [("channel_id", cid)] msgs) 0);
    [|apply preserves_ret].
  apply preserves_for_each. intros text.
  apply preserves_bind; [apply preserves_send_message|].
  intros; apply preserves_ret.
Qed.

Lemma preserves_fmap {A B : Type} (f : A -> B) (m : M A) :
  preserves I m -> preserves I (fmap f m).
Proof.
  intros H. unfold fmap. apply preserves_bind; [exact H|].
  intros; apply preserves_ret.
Qed.

Lemma preserves_handle (rq : request) : preserves I (handle rq).
Proof.
  destruct rq; simpl; apply preserves_fmap.
  - unfold list_servers. apply preserves_bind;
      [apply preserves_get_documents | intros; apply preserves_ret].
  - unfold post_api_servers. destruct (ServerIn.validate body); simpl;
      [apply preserves_create_server | apply preserves_raise].
  - apply preserves_list_channels.
  - unfold post_api_channels. destruct (ChannelIn.validate body) eqn:E; simpl;
      [|apply preserves_raise].
    apply preserves_create_channel. now apply (ChannelIn_validate_type_ok body).
  - unfold get_api_messages, list_messages. apply preserves_bind;
      [apply preserves_db_collection|]. intros coll.
    apply preserves_bind; [|intros; apply preserves_ret].
    apply preserves_reader. intros w. now destruct (limit _ _).
  - unfold post_api_messages. destruct (MessageIn.validate body); simpl;
      [apply preserves_send_message | apply preserves_raise].
  - apply preserves_seed_demo.
Qed.

End Preservation.

Lemma grown_from_added (db0 db : database) (name : string) (doc : dict) :
  grown_from db0 (Some db) -> grown_from db0 (Some (added name doc db)).
Proof.
  intros (db' & E & H). injection E as <-.
  eexists. split; [reflexivity|]. intros name'.
  destruct (H name') as [new Hnew].
  destruct (String.eqb_spec name name') as [<-|Hne].
  - exists (new ++ [doc]). rewrite collection_added_same, Hnew.
    now rewrite app_assoc.
  - exists new. now rewrite collection_added_other.
Qed.

(** X8: no request removes or changes a stored document.  Whatever the
    request and whether it succeeds or raises, the store stays configured
    and each collection afterwards is the collection from before with
    documents added at its end. *)
Theorem requests_only_append :
  forall (rq : request) (db : database),
    grown_from db (snd (handle rq (Some db))).
Proof.
  intros rq db. apply (preserves_handle (grown_from db)).
  - intros. now apply grown_from_added.
  - intros. now apply grown_from_added.
  - intros. now apply grown_from_added.
  - exists db. split; [reflexivity|]. intros name. exists [].
    now rewrite app_nil_r.
Qed.

Lemma stored_get (k : string) (data : dict) (db : database) :
  k <> "_id" -> k <> "created_at" ->
  dict_get k (stored data db) = dict_get k data.
Proof.
  intros H1 H2. unfold stored. cbn [dict_get].
  destruct (String.eqb_spec "_id" k); [congruence|].
  rewrite dict_get_del_other, dict_get_set_other by congruence. reflexivity.
Qed.

(** X9: in every state the application reaches, the [type] of every stored
    channel is one of text, voice, announcement and stage: neither a request
    nor the seed routine stores a channel of another type. *)
Theorem stored_channels_have_allowed_type :
  forall w : world, reachable w -> channel_types_ok w.
Proof.
  induction 1 as [| |w rq Hr IH].
  - constructor.
  - exact I.
  - refine (preserves_handle channel_types_ok _ _ _ rq w IH).
    + intros p db Hdb. simpl in *.
      now rewrite collection_added_other by discriminate.
    + intros sid p db Hp Hdb. simpl in *.
      rewrite collection_added_same. apply Forall_app. split; [assumption|].
      constructor; [|constructor].
      exists (ChannelIn.type p). split; [|assumption].
      rewrite stored_get by discriminate. reflexivity.
    + intros cid p db Hdb. simpl in *.
      now rewrite collection_added_other by discriminate.
Qed.

Lemma stored_channels_have_allowed_type_witness :
  channel_types_ok
    (snd (handle (PostChannels "s1" [("name", VStr "lobby"); ("type", VStr "voice")])
            (snd (handle PostSeed (Some empty_db))))).
Proof.
  apply stored_channels_have_allowed_type.
  apply reach_step. apply reach_step. apply reach_empty.
Defined.

(** ** Without a store, and with a bad body *)

(** X10: when no store is configured every handler raises and the state
    stays unconfigured; the handlers that subscript [db] themselves
    ([list_messages], [send_message], [seed_demo]) raise a TypeError, the
    others raise the adapter's error. *)
Theorem handlers_without_store :
  list_servers None = (Err StoreUnavailable, None) /\
  (forall p, create_server p None = (Err StoreUnavailable, None)) /\
  (forall sid, list_channels sid None = (Err StoreUnavailable, None)) /\
  (forall sid p, create_channel sid p None = (Err StoreUnavailable, None)) /\
  (forall cid lim, list_messages cid lim None = (Err TypeError, None)) /\
  (forall cid p, send_message cid p None = (Err TypeError, None)) /\
  seed_demo None = (Err TypeError, None) /\
  (forall rq, exists e, handle rq None = (Err e, None)).
Proof.
  repeat (split; [reflexivity|]).
  intros [| body | sid | sid body | cid lim | cid body |]; simpl;
    try (eexists; reflexivity).
  - unfold post_api_servers. destruct (ServerIn.validate body);
      eexists; reflexivity.
  - unfold post_api_channels. destruct (ChannelIn.validate body);
      eexists; reflexivity.
  - unfold post_api_messages. destruct (MessageIn.validate body);
      eexists; reflexivity.
Qed.

(** X11: a request to create a channel is rejected with a validation error,
    and stores nothing, when the body has no string [name] or names a
    [type] other than text, voice, announcement and stage. *)
Theorem channel_body_is_checked :
  forall (server_id : string) (body : dict) (w : world),
    (forall s, dict_get "name" body <> Some (VStr s)) \/
    (exists s, dict_get "type" body = Some (VStr s) /\
               ChannelIn.type_ok s = false) ->
    post_api_channels server_id body w = (Err ValidationError, w).
Proof.
  intros sid body w H. unfold post_api_channels.
  replace (ChannelIn.validate body) with (@Err ChannelIn.t ValidationError);
    [reflexivity|].
  unfold ChannelIn.validate, field_str. destruct H as [H|(s & Hs & Hbad)].
  - destruct (dict_get "name" body) as [[]|]; try reflexivity.
    now elim (H s).
  - rewrite Hs, Hbad.
    destruct (dict_get "name" body) as [[]|]; reflexivity.
Qed.

Lemma channel_body_is_checked_witness :
  post_api_channels "s1" [("name", VStr "lobby"); ("type", VStr "video")]
    (Some seeded_db) = (Err ValidationError, Some seeded_db).
Proof.
  apply channel_body_is_checked.
  right. exists "video". split; reflexivity.
Defined.

(** ** More on the diagnostic route *)

(** X12: in the response of [GET /test] the fields [database_url] and
    [database_name] only tell whether the environment variables
    DATABASE_URL and DATABASE_NAME are set to a non-empty value; what the
    probe of the store wrote into them is overwritten. *)
Theorem test_database_reports_environment :
  forall (db : option Diagnostic.db_object) (env_url env_name : option string),
    exists r : Diagnostic.response,
      Diagnostic.test_database db env_url env_name = inr r /\
      Diagnostic.backend r = "✅ Running" /\
      Diagnostic.database_url r =
        Some (if Diagnostic.env_set env_url then "✅ Set" else "❌ Not Set") /\
      Diagnostic.database_name r =
        Some (if Diagnostic.env_set env_name then "✅ Set" else "❌ Not Set").
Proof.
  intros [[[|s|msg] [msg'|cs]]|] env_url env_name;
    (eexists; split; [vm_compute; reflexivity|]);
    repeat split;
    destruct env_url as [[|c u]|], env_name as [[|c' n]|]; reflexivity.
Qed.

(** X13: [connection_status] is Connected exactly when a store handle is
    present and reading its name does not raise, also when listing the
    collections fails afterwards; [collections] holds the first ten names
    that the store lists, and is empty when the listing fails or is not
    reached. *)
Theorem test_database_connection_and_collections :
  forall (db : option Diagnostic.db_object) (env_url env_name : option string),
    exists r : Diagnostic.response,
      Diagnostic.test_database db env_url env_name = inr r /\
      length (Diagnostic.collections r) <= 10 /\
      Diagnostic.connection_status r =
        match db with
        | Some h =>
            match Diagnostic.name_attr h with
            | Diagnostic.AttrRaises _ => "Not Connected"
            | _ => "Connected"
            end
        | None => "Not Connected"
        end /\
      Diagnostic.collections r =
        match db with
        | Some h =>
            match Diagnostic.name_attr h, Diagnostic.list_collection_names h with
            | Diagnostic.AttrRaises _, _ => []
            | _, inr cs => firstn 10 cs
            | _, inl _ => []
            end
        | None => []
        end.
Proof.
  intros [[[|s|msg] [msg'|cs]]|] env_url env_name;
    (eexists; split; [vm_compute; reflexivity|]);
    (split; [|split; reflexivity]);
    try (simpl; lia); exact (firstn_le_length 10 cs).
Qed.

(** ** Seeding twice, from any reachable state *)

Lemma bind_run {A B : Type} (m : M A) (k : A -> M B) (w w1 : world) (a : A)
    (res : result B * world) :
  m w = (Ok a, w1) -> k a w1 = res -> bind m k w = res.
Proof. intros H1 H2. unfold bind. now rewrite H1. Qed.

Lemma find_one_all (docs : list dict) : find_one [] docs = hd_error docs.
Proof. unfold find_one. now rewrite find_all. Qed.

Lemma seed_settled_run (db : database) (r : seed_response) :
  seed_settled db r -> seed_demo (Some db) = (Ok r, Some db).
Proof.
  intros (first & sdoc & sid & fc & rest & cid & Hhd & Ht & Hs1 & Hs2 & Hid
          & Hc & Hch & Hch2 & Hcid & Hm).
  unfold seed_demo.
  eapply bind_run; [reflexivity|]. cbv beta.
  eapply bind_run.
  { rewrite find_one_all, Hhd, Ht. cbn [ret]. rewrite <- Hs1. reflexivity. }
  cbv beta.
  eapply bind_run.
  { rewrite Hs2. unfold subscript. rewrite Hid. reflexivity. }
  cbv beta.
  eapply bind_run; [reflexivity|]. cbv beta.
  eapply bind_run.
  { apply Nat.eqb_neq in Hc. rewrite Hc. reflexivity. }
  cbv beta.
  eapply bind_run.
  { unfold list_channels. eapply bind_run; [reflexivity|].
    cbv beta. rewrite <- Hch. reflexivity. }
  cbv beta.
  eapply bind_run.
  { rewrite Hch2.
    eapply bind_run.
    { unfold subscript. rewrite Hcid. reflexivity. }
    cbv beta.
    eapply bind_run; [reflexivity|]. cbv beta.
    apply Nat.eqb_neq in Hm. rewrite Hm. reflexivity. }
  cbv beta. destruct r; reflexivity.
Qed.

Lemma insert_loop {A : Type} (name : string) (mk : A -> dict) (body : A -> M unit) :
  (forall x db,
      body x (Some db) = (Ok tt, Some (added name (stored (mk x) db) db))) ->
  forall (l : list A) (db : database),
  exists (db' : database) (new : list dict),
    for_each l body (Some db) = (Ok tt, Some db') /\
    collection name db' = collection name db ++ new /\
    (forall name', name' <> name -> collection name' db' = collection name' db) /\
    Forall2 (fun x d => exists dbi, d = stored (mk x) dbi) l new.
Proof.
  intros Hbody l. induction l as [|x t IH]; intros db.
  - exists db, []. rewrite app_nil_r. repeat split; auto.
  - destruct (IH (added name (stored (mk x) db) db))
      as (db' & new & Hrun & Hc & Ho & Hf).
    exists db', (stored (mk x) db :: new).
    split.
    { cbn [for_each]. eapply bind_run; [apply Hbody | exact Hrun]. }
    split.
    { rewrite Hc, collection_added_same, <- app_assoc. reflexivity. }
    split.
    { intros name' Hne. rewrite Ho by assumption.
      apply collection_added_other. congruence. }
    constructor; [eauto | assumption].
Qed.

Lemma Forall2_right {A B : Type} (R : A -> B -> Prop) (P : B -> Prop)
    (l : list A) (l' : list B) :
  (forall x y, R x y -> P y) -> Forall2 R l l' -> Forall P l'.
Proof. intros H HF. induction HF; constructor; eauto. Qed.

Lemma count_after_insert (flt : dict) (old new : list dict) (d : dict) :
  matches flt d = true -> count_documents flt (old ++ d :: new) <> 0.
Proof.
  intros Hm. unfold count_documents, find. rewrite filter_app, length_app.
  simpl. rewrite Hm. simpl. lia.
Qed.

Lemma store_inv_grown (name : string) (db db' : database) (new : list dict) :
  store_inv (Some db) ->
  collection name db' = collection name db ++ new ->
  (forall name', name' <> name -> collection name' db' = collection name' db) ->
  Forall stored_ok new ->
  store_inv (Some db').
Proof.
  intros Hinv Hc Ho Hnew name'. simpl in Hinv.
  destruct (String.eqb_spec name' name) as [->|Hne].
  - rewrite Hc. apply Forall_app. split; [apply Hinv | assumption].
  - rewrite Ho by assumption. apply Hinv.
Qed.

Lemma seed_channel_run (sid : value) (name : string) (db : database) :
  seed_channel sid name (Some db) =
  (Ok tt,
   Some (added "channel"
           (stored (dict_set "server_id" sid
                      (ChannelIn.model_dump
                         (ChannelIn.Build name "text"
                            (Some ("Welcome to #" ++ name)%string) false))) db)
           db)).
Proof.
  unfold seed_channel. eapply bind_run; [apply create_channel_run | reflexivity].
Qed.

Lemma seed_message_run (cid : value) (text : string) (db : database) :
  seed_message cid text (Some db) =
  (Ok tt,
   Some (added "message"
           (stored (dict_set "channel_id" cid
                      (MessageIn.model_dump
                         (MessageIn.Build "seed" "System" text []))) db)
           db)).
Proof.
  unfold seed_message. eapply bind_run; [apply send_message_run | reflexivity].
Qed.

Lemma seed_channels_step (s : string) (db : database) (u : unit) (w : world) :
  store_inv (Some db) ->
  (if Nat.eqb (count_documents [("server_id", VStr s)] (collection "channel" db)) 0
   then for_each seed_channel_names (seed_channel (VStr s))
   else ret tt) (Some db) = (Ok u, w) ->
  exists db',
    w = Some db' /\ store_inv (Some db') /\
    count_documents [("server_id", VStr s)] (collection "channel" db') <> 0 /\
    (forall name, name <> "channel" -> collection name db' = collection name db).
Proof.
  intros Hinv.
  destruct (Nat.eqb (count_documents [("server_id", VStr s)]
                       (collection "channel" db)) 0) eqn:E.
  - destruct (insert_loop "channel" _ _ (seed_channel_run (VStr s))
                seed_channel_names db) as (db' & new & Hrun & Hc & Ho & Hf).
    rewrite Hrun. intros H. injection H as _ <-.
    exists db'. split; [reflexivity|]. split; [|split; [|exact Ho]].
    + apply (store_inv_grown "channel" db db' new); auto.
      eapply Forall2_right; [|exact Hf].
      intros x y (dbi & ->). now apply stored_is_ok.
    + rewrite Hc. inversion Hf as [|x d l l' (dbi & Hd) Hrest]; subst.
      apply count_after_insert. apply matches_str.
      rewrite stored_get by discriminate. reflexivity.
  - simpl. intros H. injection H as _ <-.
    exists db. split; [reflexivity|]. split; [assumption|].
    split; [now apply Nat.eqb_neq | reflexivity].
Qed.

Lemma seed_messages_step (c : string) (db : database) (u : unit) (w : world) :
  store_inv (Some db) ->
  (if Nat.eqb (count_documents [("channel_id", VStr c)] (collection "message" db)) 0
   then for_each seed_texts (seed_message (VStr c))
   else ret tt) (Some db) = (Ok u, w) ->
  exists db',
    w = Some db' /\ store_inv (Some db') /\
    count_documents [("channel_id", VStr c)] (collection "message" db') <> 0 /\
    (forall name, name <> "message" -> collection name db' = collection name db).
Proof.
  intros Hinv.
  destruct (Nat.eqb (count_documents [("channel_id", VStr c)]
                       (collection "message" db)) 0) eqn:E.
  - destruct (insert_loop "message" _ _ (seed_message_run (VStr c))
                seed_texts db) as (db' & new & Hrun & Hc & Ho & Hf).
    rewrite Hrun. intros H. injection H as _ <-.
    exists db'. split; [reflexivity|]. split; [|split; [|exact Ho]].
    + apply (store_inv_grown "message" db db' new); auto.
      eapply Forall2_right; [|exact Hf].
      intros x y (dbi & ->). now apply stored_is_ok.
    + rewrite Hc. inversion Hf as [|x d l l' (dbi & Hd) Hrest]; subst.
      apply count_after_insert. apply matches_str.
      rewrite stored_get by discriminate. reflexivity.
  - simpl. intros H. injection H as _ <-.
    exists db. split; [reflexivity|]. split; [assumption|].
    split; [now apply Nat.eqb_neq | reflexivity].
Qed.

Lemma stored_ok_truthy (d : dict) : stored_ok d -> truthy (Some d) = true.
Proof. intros (o & rest & -> & _). reflexivity. Qed.

Lemma seed_server_settled (p : ServerIn.t) (db : database)
    (server : option dict) (w : world) :
  store_inv (Some db) ->
  (if truthy (find_one [] (collection "server" db))
   then ret (serialize_doc (find_one [] (collection "server" db)))
   else create_server p) (Some db) = (Ok server, w) ->
  exists (db' : database) (first : dict),
    w = Some db' /\ store_inv (Some db') /\
    hd_error (collection "server" db') = Some first /\
    stored_ok first /\
    server = serialize_doc (Some first) /\
    (forall name, name <> "server" -> collection name db' = collection name db) /\
    (collection "server" db <> [] -> db' = db).
Proof.
  intros Hinv. rewrite find_one_all.
  pose proof (Hinv "server") as Hall.
  destruct (collection "server" db) as [|d t] eqn:Ec.
  - cbn [hd_error truthy]. rewrite create_server_run, Ec. cbn [app].
    set (raw := stored (ServerIn.model_dump p) db).
    assert (Hfind : find_one [("_id", VOid (fresh_oid db))] [raw] = Some raw).
    { apply (find_one_last_fresh _ [] raw); [constructor|].
      now apply matches_id. }
    rewrite Hfind. intros H. injection H as <- <-.
    exists (added "server" raw db), raw.
    split; [reflexivity|].
    split; [now apply store_inv_added|].
    split; [now rewrite collection_added_same, Ec|].
    split; [now apply stored_is_ok|].
    split; [reflexivity|].
    split; [|congruence].
    intros name Hne. apply collection_added_other. congruence.
  - inversion Hall as [|? ? Hd Ht]; subst.
    cbn [hd_error]. rewrite (stored_ok_truthy d Hd). cbn [ret].
    intros H. injection H as <- <-.
    exists db, d. rewrite Ec. repeat split; auto.
Qed.

Lemma pair_Ok_inv {A : Type} (a b : A) (w w' : world) :
  (Ok a, w) = (Ok b, w') -> a = b /\ w = w'.
Proof. intros H. now injection H. Qed.

Lemma list_channels_run (sid : value) (db : database) :
  list_channels sid (Some db) =
  (Ok (map (fun c => serialize_doc (Some c))
           (find [("server_id", sid)] (collection "channel" db))), Some db).
Proof. reflexivity. Qed.

Lemma seed_demo_settles (db : database) (r : seed_response) (w' : world) :
  store_inv (Some db) ->
  seed_demo (Some db) = (Ok r, w') ->
  exists db' : database,
    w' = Some db' /\ seed_settled db' r /\
    (forall first, hd_error (collection "server" db) = Some first ->
                   collection "server" db' = collection "server" db /\
                   seed_server r = serialize_doc (Some first)).
Proof.
  intros Hinv H. unfold seed_demo in H.
  apply bind_Ok in H as (servers & w1 & H1 & H).
  apply db_collection_Ok in H1 as (-> & db0 & E & ->). injection E as <-.
  apply bind_Ok in H as (server & w2 & H2 & H).
  apply seed_server_settled in H2; [|assumption].
  destruct H2 as (db2 & first & -> & Hinv2 & Hhd & Hok & -> & Ho2 & Hsame).
  destruct (stored_ok_exposes_id first Hok) as (sdoc & sid & Hs & Hid & _ & _).
  apply bind_Ok in H as (server_id & w3 & H3 & H).
  rewrite Hs in H3. unfold subscript in H3. rewrite Hid in H3.
  cbn [ret] in H3. injection H3 as <- <-.
  apply bind_Ok in H as (chans & w4 & H4 & H).
  apply db_collection_Ok in H4 as (-> & db0 & E & ->). injection E as <-.
  apply bind_Ok in H as (u & w5 & H5 & H).
  apply seed_channels_step in H5; [|assumption].
  destruct H5 as (db5 & -> & Hinv5 & Hc5 & Ho5).
  apply bind_Ok in H as (channels & w6 & H6 & H).
  rewrite list_channels_run in H6. apply pair_Ok_inv in H6 as [<- <-].
  apply bind_Ok in H as (u' & w7 & H7 & H).
  unfold ret in H. apply pair_Ok_inv in H as [<- <-].
  destruct (find [("server_id", VStr sid)] (collection "channel" db5))
    as [|c rest] eqn:Ef.
  { exfalso. apply Hc5. unfold count_documents. now rewrite Ef. }
  assert (Hcok : stored_ok c).
  { pose proof (Hinv5 "channel") as Hall. rewrite Forall_forall in Hall.
    apply Hall. assert (Hin : In c (c :: rest)) by now left.
    rewrite <- Ef in Hin. unfold find in Hin. now apply filter_In in Hin. }
  destruct (stored_ok_exposes_id c Hcok) as (fc & cs & Hfc & Hcid & _ & _).
  rewrite map_cons in H7. cbv beta iota in H7. rewrite Hfc in H7.
  apply bind_Ok in H7 as (cid & w8 & H8 & H7).
  unfold subscript in H8. rewrite Hcid in H8. cbn [ret] in H8.
  injection H8 as <- <-.
  apply bind_Ok in H7 as (msgs & w9 & H9 & H7).
  apply db_collection_Ok in H9 as (-> & db0 & E & ->). injection E as <-.
  apply seed_messages_step in H7; [|assumption].
  destruct H7 as (db7 & -> & Hinv7 & Hm7 & Ho7).
  exists db7. split; [reflexivity|]. split.
  - exists first, sdoc, sid, fc,
      (map (fun c0 => serialize_doc (Some c0)) rest), (VStr cs).
    cbv [seed_server seed_channels].
    rewrite !Ho7, !Ho5 by discriminate. rewrite Ef, map_cons, Hfc.
    repeat split; auto using stored_ok_truthy.
  - intros first0 Hfirst0.
    assert (Hne : collection "server" db <> []).
    { intros E. rewrite E in Hfirst0. discriminate. }
    specialize (Hsame Hne). subst db2.
    rewrite Ho7, Ho5 by discriminate. split; [reflexivity|].
    cbv [seed_server]. congruence.
Qed.

(** X14: in every state the application reaches, a successful run of the
    seed routine leaves a store on which the routine changes nothing more: a
    second run returns the same response and the same store. *)
Theorem seed_demo_idempotent :
  forall (w w' : world) (r : seed_response),
    reachable w ->
    seed_demo w = (Ok r, w') ->
    seed_demo w' = (Ok r, w').
Proof.
  intros w w' r Hr H. pose proof (reachable_store_inv w Hr) as Hinv.
  destruct w as [db|]; [|discriminate].
  destruct (seed_demo_settles db r w' Hinv H) as (db' & -> & Hset & _).
  now apply seed_settled_run.
Qed.

Lemma seed_demo_idempotent_witness :
  seed_demo (snd (seed_demo (snd (handle (PostServers [("name", VStr "Mine")])
                                    (Some empty_db))))) =
  (Ok (mkSeed
         (Some [("id", VStr "000000000000000000000000"); ("name", VStr "Mine");
                ("icon_url", VNone); ("description", VNone);
                ("owner_id", VNone); ("created_at", VDate 0)])
         (map (fun c => serialize_doc (Some c))
              (collection "channel"
                 (match snd (seed_demo
                               (snd (handle (PostServers [("name", VStr "Mine")])
                                       (Some empty_db)))) with
                  | Some db => db
                  | None => empty_db
                  end)))),
   snd (seed_demo (snd (handle (PostServers [("name", VStr "Mine")])
                          (Some empty_db))))).
Proof.
  apply (seed_demo_idempotent
           (snd (handle (PostServers [("name", VStr "Mine")]) (Some empty_db)))).
  - apply reach_step. apply reach_empty.
  - vm_compute. reflexivity.
Defined.

(** X15: when the store already holds a server, the seed routine creates
    none: the server collection is left as it is and the response carries
    the first stored server. *)
Theorem seed_demo_reuses_first_server :
  forall (db : database) (first : dict) (r : seed_response) (w' : world),
    reachable (Some db) ->
    hd_error (collection "server" db) = Some first ->
    seed_demo (Some db) = (Ok r, w') ->
    exists db' : database,
      w' = Some db' /\
      collection "server" db' = collection "server" db /\
      seed_server r = serialize_doc (Some first).
Proof.
  intros db first r w' Hr Hfirst H.
  pose proof (reachable_store_inv _ Hr) as Hinv.
  destruct (seed_demo_settles db r w' Hinv H) as (db' & -> & _ & Hre).
  exists db'. split; [reflexivity|]. now apply Hre.
Qed.

Lemma seed_demo_reuses_first_server_witness :
  exists db' : database,
    snd (seed_demo (Some one_server_db)) = Some db' /\
    collection "server" db' = collection "server" one_server_db /\
    seed_server
      (match fst (seed_demo (Some one_server_db)) with
       | Ok r => r
       | Err _ => mkSeed None []
       end) =
    serialize_doc
      (Some [("_id", VOid (Oid 0)); ("name", VStr "Mine"); ("icon_url", VNone);
             ("description", VNone); ("owner_id", VNone);
             ("created_at", VDate 0)]).
Proof.
  apply (seed_demo_reuses_first_server one_server_db).
  - change (Some one_server_db)
      with (snd (handle (PostServers [("name", VStr "Mine")]) (Some empty_db))).
    apply reach_step. apply reach_empty.
  - vm_compute. reflexivity.
  - vm_compute. reflexivity.
Defined.

(** ** The channel lookup of [send_message] *)

Lemma stored_ok_no_id (d : dict) : stored_ok d -> dict_get "id" d = None.
Proof. intros (o & rest & -> & _ & H). exact H. Qed.

Lemma find_one_none (flt : dict) (docs : list dict) :
  Forall (fun d => matches flt d = false) docs -> find_one flt docs = None.
Proof.
  intros H. unfold find_one, find.
  induction H as [|d t Hd Ht IH]; simpl; auto. now rewrite Hd.
Qed.

(** X16: for a [channel_id] that is not a valid ObjectId string,
    [send_message] looks the channel up by a field named [id]; no stored
    channel has such a field, so in every state the application reaches
    this lookup finds nothing. *)
Theorem lookup_by_id_field_finds_nothing :
  forall (db : database) (channel_id : string),
    reachable (Some db) ->
    ObjectId_is_valid channel_id = false ->
    lookup_channel (VStr channel_id) (collection "channel" db) = None.
Proof.
  intros db cid Hr Hbad.
  pose proof (reachable_store_inv _ Hr "channel") as Hall.
  unfold lookup_channel, ObjectId_is_valid_value. rewrite Hbad.
  apply find_one_none. eapply Forall_impl; [|exact Hall].
  intros d Hd. unfold matches. cbn [forallb fst snd].
  now rewrite (stored_ok_no_id d Hd).
Qed.

Lemma reachable_seeded : reachable (Some seeded_db).
Proof.
  assert (E : snd (handle PostSeed (Some empty_db)) = Some seeded_db)
    by (vm_compute; reflexivity).
  rewrite <- E. apply reach_step. apply reach_empty.
Qed.

Lemma lookup_by_id_field_finds_nothing_witness :
  lookup_channel (VStr "general") (collection "channel" seeded_db) = None.
Proof.
  apply lookup_by_id_field_finds_nothing.
  - exact reachable_seeded.
  - reflexivity.
Defined.

(** ** The shape of every serialized document *)

Lemma dict_get_In (k : string) (v : value) (d : dict) :
  dict_get k d = Some v -> In (k, v) d.
Proof.
  induction d as [|[k' v'] t IH]; simpl; [discriminate|].
  destruct (String.eqb_spec k' k) as [->|Hne].
  - intros H. injection H as ->. now left.
  - intros H. right. now apply IH.
Qed.

(** X17: whatever document it is given, [serialize_doc] returns a dict with
    no [_id] key, no key twice and no ObjectId as a top-level value. *)
Theorem serialize_doc_output_shape :
  forall d : dict,
    exists out : dict,
      serialize_doc (Some d) = Some out /\
      dict_get "_id" out = None /\
      NoDup (dict_keys out) /\
      forall (k : string) (v : value) (o : ObjectId),
        dict_get k out = Some v -> v <> VOid o.
Proof.
  intros d.
  assert (Hplain : exists out, serialize_doc (Some d) = Some out /\ plain out).
  { destruct d as [|kv t].
    - exists []. split; [reflexivity | apply plain_nil].
    - eexists. split; [reflexivity|]. apply serialize_items_plain, plain_nil. }
  destruct Hplain as (out & E & Hnd & Hid & Hv).
  exists out. repeat split; auto.
  intros k v o Hget ->. apply dict_get_In in Hget.
  rewrite Forall_forall in Hv. specialize (Hv _ Hget). discriminate.
Qed.


(** ** Identifiers in responses, tied to the store *)

Lemma ids_fit_added (name : string) (data : dict) (db : database) :
  ids_fit (Some db) -> ids_fit (Some (added name (stored data db) db)).
Proof.
  intros Hinv name'. simpl in Hinv.
  destruct (String.eqb_spec name name') as [<-|Hne].
  - rewrite collection_added_same. apply Forall_app. split; [apply Hinv|].
    constructor; [|constructor].
    intros o Ho. rewrite stored_id in Ho. injection Ho as <-.
    unfold fresh_oid; simpl. apply N.mod_lt. discriminate.
  - rewrite collection_added_other by assumption. apply Hinv.
Qed.

Lemma reachable_ids_fit (w : world) : reachable w -> ids_fit w.
Proof.
  induction 1 as [| |w rq Hr IH].
  - intros name. constructor.
  - exact I.
  - refine (preserves_handle ids_fit _ _ _ rq w IH); intros;
      now apply ids_fit_added.
Qed.

Lemma ObjectId_parse_round_trip (o : ObjectId) :
  (oid_val o < 2 ^ 96)%N -> ObjectId_parse (ObjectId_str o) = Some o.
Proof.
  destruct o as [n]. simpl. intros Hn.
  rewrite ObjectId_parse_str. now rewrite N.mod_small.
Qed.

Lemma member_exposes_store_id (db : database) (name : string) (raw : dict) :
  store_inv (Some db) -> ids_fit (Some db) ->
  In raw (collection name db) ->
  exposes_store_id db (serialize_doc (Some raw)).
Proof.
  intros Hinv Hfit Hin.
  pose proof (Hinv name) as Hall. rewrite Forall_forall in Hall.
  pose proof (Hfit name) as Hall'. rewrite Forall_forall in Hall'.
  destruct (Hall raw Hin) as (o & rest & -> & Hid & Hid').
  exists name, (("_id", VOid o) :: rest),
    (serialize_items (("_id", VOid o) :: rest) []), o.
  split; [assumption|]. split; [reflexivity|].
  split; [reflexivity|]. split; [reflexivity|].
  split.
  { rewrite serialize_items_get. cbn [last_binding].
    rewrite last_binding_id_absent by assumption. reflexivity. }
  split.
  { apply ObjectId_parse_round_trip. now apply (Hall' _ Hin). }
  now rewrite serialize_items_get, last_binding_underscore_id.
Qed.

Lemma fmap_Ok {A B : Type} (f : A -> B) (m : M A) (w : world) (b : B) :
  fst (fmap f m w) = Ok b ->
  exists a w', m w = (Ok a, w') /\ snd (fmap f m w) = w' /\ b = f a.
Proof.
  unfold fmap, bind. destruct (m w) as [[a|e] w']; simpl; [|discriminate].
  intros H. injection H as <-. eauto.
Qed.

Lemma from_store_map (db : database) (name : string) (docs : list dict) :
  (forall d, In d docs -> In d (collection name db)) ->
  Forall (from_store db) (map (fun d => serialize_doc (Some d)) docs).
Proof.
  intros H. apply Forall_map. apply Forall_forall. intros d Hd.
  exists name, d. split; [now apply H | reflexivity].
Qed.

Lemma from_store_created (name : string) (data : dict) (db : database) :
  from_store (added name (stored data db) db)
    (serialize_doc
       (find_one [("_id", VOid (fresh_oid db))]
                 (collection name db ++ [stored data db]))).
Proof.
  destruct (find_one_last_some [("_id", VOid (fresh_oid db))]
              (collection name db) (stored data db)) as [d Hd].
  { now apply matches_id. }
  rewrite Hd. exists name, d. split; [|reflexivity].
  rewrite collection_added_same. now apply find_one_In in Hd.
Qed.

Lemma handle_from_store (rq : request) (db : database) (resp : response) :
  store_inv (Some db) ->
  fst (handle rq (Some db)) = Ok resp ->
  exists db', snd (handle rq (Some db)) = Some db' /\
              Forall (from_store db') (response_docs resp).
Proof.
  intros Hinv H. destruct rq; unfold handle in H |- *;
    apply fmap_Ok in H as (a & w' & Hrun & -> & ->).
  - exists db.
    change (list_servers (Some db)) with
      (Ok (map (fun s => serialize_doc (Some s))
               (find [] (collection "server" db))), Some db) in Hrun.
    apply pair_Ok_inv in Hrun as [<- <-]. split; [reflexivity|].
    apply (from_store_map db "server").
    intros d Hd. unfold find in Hd. now apply filter_In in Hd.
  - unfold post_api_servers in *.
    destruct (ServerIn.validate body) as [p|e]; [|discriminate Hrun].
    cbn [validated] in *. rewrite create_server_run in Hrun.
    apply pair_Ok_inv in Hrun as [<- <-].
    eexists. split; [reflexivity|]. constructor; [|constructor].
    apply from_store_created.
  - exists db. rewrite list_channels_run in Hrun.
    apply pair_Ok_inv in Hrun as [<- <-]. split; [reflexivity|].
    apply (from_store_map db "channel").
    intros d Hd. unfold find in Hd. now apply filter_In in Hd.
  - unfold post_api_channels in *.
    destruct (ChannelIn.validate body) as [p|e]; [|discriminate Hrun].
    cbn [validated] in *. rewrite create_channel_run in Hrun.
    apply pair_Ok_inv in Hrun as [<- <-].
    eexists. split; [reflexivity|]. constructor; [|constructor].
    apply from_store_created.
  - exists db. unfold get_api_messages in *.
    rewrite (list_messages_run _ _ _ _ eq_refl) in Hrun.
    destruct (limit _ _) as [docs|e] eqn:El; [|discriminate Hrun].
    apply pair_Ok_inv in Hrun as [<- <-]. split; [reflexivity|].
    apply (from_store_map db "message").
    intros d Hd. apply (limit_In _ _ _ _ El) in Hd.
    apply (proj1 (sort_created_at_In _ _)) in Hd.
    unfold find in Hd. now apply filter_In in Hd.
  - unfold post_api_messages in *.
    destruct (MessageIn.validate body) as [p|e]; [|discriminate Hrun].
    cbn [validated] in *. rewrite send_message_run in Hrun.
    apply pair_Ok_inv in Hrun as [<- <-].
    eexists. split; [reflexivity|]. constructor; [|constructor].
    apply from_store_created.
  - destruct (seed_demo_settles db a _ Hinv Hrun) as (db' & -> & Hset & _).
    exists db'. split; [reflexivity|].
    destruct Hset as (first & sdoc & sid & fc & rest & cid & Hhd & _ & Hs1 & _
                      & _ & _ & Hch & _).
    cbn [response_docs]. constructor.
    + exists "server", first. split; [|exact Hs1].
      destruct (collection "server" db') as [|d t]; [discriminate|].
      injection Hhd as ->. now left.
    + rewrite Hch. apply (from_store_map db' "channel").
      intros d Hd. unfold find in Hd. now apply filter_In in Hd.
Qed.

(** C7: in every state the application reaches, every document of every
    response (a single document, the elements of a list, the server and the
    channels of the seed response) exposes its store identifier: it is the
    serialization of a document of the store as the request leaves it, its
    [id] is the 24-digit string form of the [_id] of that stored document,
    an ObjectId that the string reads back to, and it has no key [_id]. *)
Theorem responses_expose_id :
  forall (w : world) (rq : request) (resp : response),
    reachable w ->
    fst (handle rq w) = Ok resp ->
    exists db' : database,
      snd (handle rq w) = Some db' /\
      Forall (exposes_store_id db') (response_docs resp).
Proof.
  intros w rq resp Hr Hresp.
  pose proof (reachable_store_inv w Hr) as Hinv.
  pose proof (reach_step w rq Hr) as Hr'.
  destruct w as [db|].
  - destruct (handle_from_store rq db resp Hinv Hresp) as (db' & E & Hall).
    exists db'. split; [exact E|].
    rewrite E in Hr'.
    pose proof (reachable_store_inv _ Hr') as Hinv'.
    pose proof (reachable_ids_fit _ Hr') as Hfit'.
    eapply Forall_impl; [|exact Hall].
    intros r (name & raw & Hin & ->).
    now apply (member_exposes_store_id db' name raw).
  - exfalso. destruct rq; simpl in Hresp; try discriminate Hresp.
    + unfold post_api_servers in Hresp.
      destruct (ServerIn.validate body); discriminate Hresp.
    + unfold post_api_channels in Hresp.
      destruct (ChannelIn.validate body); discriminate Hresp.
    + unfold post_api_messages in Hresp.
      destruct (MessageIn.validate body); discriminate Hresp.
Qed.

Lemma responses_expose_id_witness :
  exists db' : database,
    snd (handle GetServers (snd (handle PostSeed (Some empty_db)))) = Some db' /\
    Forall (exposes_store_id db')
      (response_docs
         (RList [Some [("id", VStr "000000000000000000000000");
                       ("name", VStr "VibeCord"); ("icon_url", VNone);
                       ("description", VStr "A modern, minimal community");
                       ("owner_id", VNone); ("created_at", VDate 0)]])).
Proof.
  apply (responses_expose_id
           (snd (handle PostSeed (Some empty_db))) GetServers).
  - apply reach_step. apply reach_empty.
  - vm_compute. reflexivity.
Defined.
